(** * The fixture generator of go-readability (scripts/generate-test.go)

    A shallow embedding of [main], [generateTestcase], [fileExists],
    [downloadWebPage], [renderNodeToFile] and [renderMetadataToFile], over a
    model of the operating system (files, directory listing, HTTP client) and
    of the external collaborators (DOM parser, extraction engine, renderer,
    readerable check, JSON string encoder). *)

From stdpp Require Import gmap strings list fin_maps sorting.

(** ** Data *)

(** A path is the list of its components: [fp.Join] appends components and
    [fp.Dir] drops the last one.  A file or test name is one component. *)
Abbreviation path := (list string).

Definition seg (name : string) : path := [name].
Definition fp_Join (elems : list path) : path := concat elems.
Definition fp_Dir (p : path) : path := removelast p.

Inductive errno := ENOENT | EACCES | ENOTDIR | ELOOP | EISDIR | EIO.

(** Why the system refuses to resolve a path that may well exist: a
    directory above it cannot be searched, a component above it is a plain
    file, or it runs into too many symbolic links. *)
Inductive refusal := Denied | NotADirectory | Loop.

Definition refusal_errno (r : refusal) : errno :=
  match r with
  | Denied => EACCES
  | NotADirectory => ENOTDIR
  | Loop => ELOOP
  end.

(** Go [error] values.  The [nil] error is [None] of [option error]. *)
Inductive error :=
| PathError (e : errno)
| ErrText (msg : string)
| Errorf (ctx : string) (cause : error).

Inductive node := File (data : string) | Dir.

Record FileInfo := { fi_IsDir : bool }.
Record DirEntry := { Name : string; IsDir : bool }.

(** What the HTTP client delivers for a URL: no response at all, or a
    response whose body yields [received] and then ends, with end-of-file
    ([None]) or with a read error (timeout, reset connection). *)
Inductive response :=
| NoResponse (e : error)
| Response (received : string) (rerr : option error).

Record Article (N : Type) := {
  Title : string;
  Byline : string;
  Excerpt : string;
  Language : string;
  SiteName : string;
  ArticleNode : N
}.
Arguments Title {N} _.
Arguments Byline {N} _.
Arguments Excerpt {N} _.
Arguments Language {N} _.
Arguments SiteName {N} _.
Arguments ArticleNode {N} _.

(** The collaborators that are not part of the script: packages net/url,
    go-shiori/dom, golang.org/x/net/html, encoding/json and the readability
    engine itself.  [FromDocument] is handed a pointer: besides its result it
    gives the tree it leaves behind that pointer. *)
Class Collaborators := {
  html_Node : Type;
  nurl_ParseRequestURI : string → option error;
  dom_Parse : string → error + html_Node;
  FromDocument : html_Node → option string → (error + Article html_Node) * html_Node;
  CheckDocument : html_Node → bool;
  html_Render : html_Node → string * option error;
  json_encodeString : string → string
}.

Inductive logline :=
| LNeedArgument
| LMaxTwoArguments
| LTestNameUndefined
| LURLNotValid (url : string) (e : error)
| LReadDirFailed (e : error)
| LFailedGenerate (testName : string) (e : error)
| LGenerating (testName : string)
| LDownloading (testName url : string).

Inductive event :=
| EvLog (l : logline)
| EvStat (p : path)
| EvReadDir (p : path)
| EvMkdirAll (p : path)
| EvCreate (p : path)
| EvOpen (p : path)
| EvRead (p : path)
| EvWrite (p : path) (data : string)
| EvSync (p : path)
| EvClose (p : path)
| EvGet (url : string)
| EvBodyRead (url : string)
| EvBodyClose (url : string).

Definition is_net (e : event) : bool :=
  match e with
  | EvGet _ | EvBodyRead _ | EvBodyClose _ => true
  | _ => false
  end.

Definition is_fs (e : event) : bool :=
  match e with
  | EvLog _ | EvGet _ | EvBodyRead _ | EvBodyClose _ => false
  | _ => true
  end.

Definition is_write_to (p : path) (e : event) : bool :=
  match e with
  | EvWrite q _ => bool_decide (q = p)
  | _ => false
  end.

(** How a call ends: it returns, the process exits through [log.Fatal], or
    it panics. *)
Inductive outcome (A : Type) :=
| Ret (a : A)
| Fatal (l : logline)
| Panic.
Arguments Ret {A} a.
Arguments Fatal {A} l.
Arguments Panic {A}.

Section Script.
Context `{C : Collaborators}.

(** ** The world *)

Record World := {
  fs : gmap path node;          (* what is on disk *)
  blocked : gmap path refusal;  (* paths the system refuses to resolve *)
  ioerr : gset path;            (* files on which write and sync fail *)
  net : string → response;      (* the network, by URL *)
  heap : gmap nat html_Node     (* parsed documents, by address *)
}.

Definition with_fs (f : gmap path node) (w : World) : World :=
  {| fs := f; blocked := blocked w; ioerr := ioerr w; net := net w; heap := heap w |}.
Definition with_heap (h : gmap nat html_Node) (w : World) : World :=
  {| fs := fs w; blocked := blocked w; ioerr := ioerr w; net := net w; heap := h |}.

Record run (A : Type) := Run {
  out : outcome A;
  world : World;
  events : list event
}.
Arguments Run {A} _ _ _.
Arguments out {A} _.
Arguments world {A} _.
Arguments events {A} _.

Definition M (A : Type) : Type := World → run A.

Definition ret {A} (a : A) : M A := λ w, Run (Ret a) w [].

Definition bind {A B} (m : M A) (k : A → M B) : M B := λ w,
  match m w with
  | Run (Ret a) w1 ev1 =>
      match k a w1 with
      | Run o w2 ev2 => Run o w2 (ev1 ++ ev2)
      end
  | Run (Fatal l) w1 ev1 => Run (Fatal l) w1 ev1
  | Run Panic w1 ev1 => Run Panic w1 ev1
  end.

Definition emit (e : event) : M unit := λ w, Run (Ret ()) w [e].
Definition panic {A} : M A := λ w, Run Panic w [].

Notation "x <- m ;; k" := (bind m (λ x, k))
  (at level 100, m at next level, right associativity).
Notation "m ;;; k" := (bind m (λ _, k))
  (at level 100, right associativity).

(** [defer f.Close()]: the call runs when the function returns or panics,
    not when the process exits. *)
Definition defer {A} (closing : event) (body : M A) : M A := λ w,
  match body w with
  | Run (Fatal l) w1 ev1 => Run (Fatal l) w1 ev1
  | Run o w1 ev1 => Run o w1 (ev1 ++ [closing])
  end.

(** ** Package log *)

Definition log_Println (l : logline) : M unit := emit (EvLog l).
Definition log_Fatal {A} (l : logline) : M A := λ w, Run (Fatal l) w [EvLog l].

(** ** Package os *)

Definition os_IsNotExist (err : option error) : bool :=
  match err with
  | Some (PathError ENOENT) => true
  | _ => false
  end.

Definition stat_result (w : World) (p : path) : option FileInfo * option error :=
  match blocked w !! p with
  | Some r => (None, Some (PathError (refusal_errno r)))
  | None =>
      match fs w !! p with
      | Some (File _) => (Some {| fi_IsDir := false |}, None)
      | Some Dir => (Some {| fi_IsDir := true |}, None)
      | None => (None, Some (PathError ENOENT))
      end
  end.

Definition os_Stat (p : path) : M (option FileInfo * option error) := λ w,
  Run (Ret (stat_result w p)) w [EvStat p].

(** A method call on a [nil] interface value panics. *)
Definition FileInfo_IsDir (info : option FileInfo) : M bool :=
  match info with
  | Some i => ret (fi_IsDir i)
  | None => panic
  end.

Definition parent_is_dir (w : World) (p : path) : bool :=
  match fp_Dir p with
  | [] => true
  | d => match fs w !! d with Some Dir => true | _ => false end
  end.

(** [os.Create]: the file is created empty or truncated; it fails on a
    path the system refuses, on a directory, and when the directory it
    is to stand in is missing. *)
Definition os_Create (p : path) : M (option error) := λ w,
  match blocked w !! p with
  | Some r => Run (Ret (Some (PathError (refusal_errno r)))) w [EvCreate p]
  | None =>
      match fs w !! p with
      | Some Dir => Run (Ret (Some (PathError EISDIR))) w [EvCreate p]
      | _ =>
          if parent_is_dir w p
          then Run (Ret None) (with_fs (<[p := File EmptyString]> (fs w)) w) [EvCreate p]
          else Run (Ret (Some (PathError ENOENT))) w [EvCreate p]
      end
  end.

Definition os_Open (p : path) : M (option error) := λ w,
  match blocked w !! p with
  | Some r => Run (Ret (Some (PathError (refusal_errno r)))) w [EvOpen p]
  | None =>
      match fs w !! p with
      | Some _ => Run (Ret None) w [EvOpen p]
      | None => Run (Ret (Some (PathError ENOENT))) w [EvOpen p]
      end
  end.

Definition append_data (data : string) (n : node) : node :=
  match n with
  | File old => File (old +:+ data)
  | Dir => Dir
  end.

(** Writes append to the file behind the handle; on a failing device a
    write and a sync return an error and leave the file as it is. *)
Definition file_Write (p : path) (data : string) : M (option error) := λ w,
  if decide (p ∈ ioerr w)
  then Run (Ret (Some (PathError EIO))) w [EvWrite p EmptyString]
  else Run (Ret None) (with_fs (alter (append_data data) p (fs w)) w) [EvWrite p data].

Definition file_Sync (p : path) : M (option error) := λ w,
  if decide (p ∈ ioerr w)
  then Run (Ret (Some (PathError EIO))) w [EvSync p]
  else Run (Ret None) w [EvSync p].

(** [os.MkdirAll]: the components are made from the top down; what is
    already a directory is passed, a plain file in the way stops the call.
    The script ignores its result. *)
Fixpoint mkdir_from (f : gmap path node) (done rest : path) : gmap path node :=
  match rest with
  | [] => f
  | s :: rest' =>
      let d := done ++ [s] in
      match f !! d with
      | Some Dir => mkdir_from f d rest'
      | Some (File _) => f
      | None => mkdir_from (<[d := Dir]> f) d rest'
      end
  end.

Definition os_MkdirAll (p : path) : M unit := λ w,
  Run (Ret ()) (with_fs (mkdir_from (fs w) [] p) w) [EvMkdirAll p].

(** [ioutil.ReadDir]: the entries directly under the directory, sorted
    by name. *)
Definition child_of (dir : path) (kn : path * node) : option DirEntry :=
  match reverse kn.1 with
  | name :: rd =>
      if decide (reverse rd = dir)
      then Some {| Name := name;
                   IsDir := match kn.2 with Dir => true | File _ => false end |}
      else None
  | [] => None
  end.

Definition by_name (a b : DirEntry) : Prop := String.leb (Name a) (Name b) = true.
Local Instance by_name_dec : RelDecision by_name :=
  λ a b, decide (String.leb (Name a) (Name b) = true).

Definition children (f : gmap path node) (dir : path) : list DirEntry :=
  merge_sort by_name (omap (child_of dir) (map_to_list f)).

Definition ioutil_ReadDir (p : path) : M (error + list DirEntry) := λ w,
  match blocked w !! p with
  | Some r => Run (Ret (inl (PathError (refusal_errno r)))) w [EvReadDir p]
  | None =>
      match fs w !! p with
      | Some Dir => Run (Ret (inr (children (fs w) p))) w [EvReadDir p]
      | Some (File _) => Run (Ret (inl (PathError ENOTDIR))) w [EvReadDir p]
      | None => Run (Ret (inl (PathError ENOENT))) w [EvReadDir p]
      end
  end.

(** ** The script: fileExists *)

Definition fileExists (filePath : path) : M bool :=
  r <- os_Stat filePath ;;
  let '(info, err) := r in
  if negb (os_IsNotExist err)
  then (d <- FileInfo_IsDir info ;; ret (negb d))
  else ret false.

(** ** Package net/http: the shared client, one minute of timeout *)

Definition httpClient_Get (url : string) : M (error + string * option error) := λ w,
  match net w url with
  | NoResponse e => Run (Ret (inl e)) w [EvGet url]
  | Response received rerr => Run (Ret (inr (received, rerr))) w [EvGet url]
  end.

(** [io.Copy(dst, resp.Body)]: what the body yields is written to [dst] as it
    arrives; the copy stops at the first write error or read error. *)
Definition io_Copy (dst : path) (url : string) (body : string * option error)
  : M (option error) :=
  emit (EvBodyRead url) ;;;
  werr <- file_Write dst body.1 ;;
  match werr with
  | Some e => ret (Some e)
  | None => ret body.2
  end.

(** ** Packages dom, html and readability, on the shared heap *)

Definition dom_Parse_file (src : path) : M (error + nat) := λ w,
  match fs w !! src with
  | Some (File data) =>
      match dom_Parse data with
      | inl e => Run (Ret (inl e)) w [EvRead src]
      | inr n =>
          let doc := fresh (dom (heap w)) in
          Run (Ret (inr doc)) (with_heap (<[doc := n]> (heap w)) w) [EvRead src]
      end
  | _ => Run (Ret (inl (PathError EISDIR))) w [EvRead src]
  end.

Definition readability_FromDocument (doc : nat) (pageURL : option string)
  : M (error + Article html_Node) := λ w,
  match heap w !! doc with
  | Some n =>
      let '(res, n') := FromDocument n pageURL in
      Run (Ret res) (with_heap (<[doc := n']> (heap w)) w) []
  | None => Run Panic w []
  end.

Definition readability_CheckDocument (doc : nat) : M bool := λ w,
  match heap w !! doc with
  | Some n => Run (Ret (CheckDocument n)) w []
  | None => Run Panic w []
  end.

Definition html_Render_to (dst : path) (element : html_Node) : M (option error) :=
  werr <- file_Write dst (html_Render element).1 ;;
  match werr with
  | Some e => ret (Some e)
  | None => ret (html_Render element).2
  end.

(** ** Package encoding/json, for a struct of strings and booleans *)

Definition dq : string := String (Ascii.ascii_of_nat 34) EmptyString.
Definition nl : string := String (Ascii.ascii_of_nat 10) EmptyString.

Inductive jvalue := JString (s : string) | JBool (b : bool).

Record jfield := { jkey : string; omitempty : bool; jval : jvalue }.

Definition is_empty_value (v : jvalue) : bool :=
  match v with
  | JString s => bool_decide (s = EmptyString)
  | JBool b => negb b
  end.

Definition kept (f : jfield) : bool := negb (omitempty f && is_empty_value (jval f)).

Definition encode_value (v : jvalue) : string :=
  match v with
  | JString s => json_encodeString s
  | JBool true => "true"
  | JBool false => "false"
  end.

Definition member (f : jfield) : string :=
  dq +:+ jkey f +:+ dq +:+ ": " +:+ encode_value (jval f).

Fixpoint members (pre : string) (fields : list jfield) : string :=
  match fields with
  | [] => EmptyString
  | [f] => pre +:+ member f
  | f :: rest => pre +:+ member f +:+ "," +:+ nl +:+ members pre rest
  end.

Definition json_MarshalIndent (fields : list jfield) (prefix indent : string)
  : error + string :=
  match List.filter kept fields with
  | [] => inr "{}"
  | present =>
      inr ("{" +:+ nl +:+ members (prefix +:+ indent) present +:+ nl +:+ prefix +:+ "}")
  end.

(** The lines of a text, and the lines of an object with a comma after
    every member but the last. *)
Definition is_nl (c : Ascii.ascii) : bool := bool_decide (c = Ascii.ascii_of_nat 10).


Fixpoint lines (s : string) : list string :=
  match s with
  | EmptyString => [EmptyString]
  | String c rest =>
      if is_nl c then EmptyString :: lines rest
      else match lines rest with
           | first :: more => String c first :: more
           | [] => [String c EmptyString]
           end
  end.







(** ** The script *)

Definition downloadWebPage (srcURL : string) (dstPath : path) : M (option error) :=
  match nurl_ParseRequestURI srcURL with
  | Some err => ret (Some (Errorf "failed to parse URL" err))
  | None =>
      r <- httpClient_Get srcURL ;;
      match r with
      | inl err => ret (Some (Errorf "failed to fetch URL" err))
      | inr resp =>
          defer (EvBodyClose srcURL) (
            os_MkdirAll (fp_Dir dstPath) ;;;
            cerr <- os_Create dstPath ;;
            match cerr with
            | Some err => ret (Some (Errorf "failed to save file" err))
            | None =>
                defer (EvClose dstPath) (
                  err <- io_Copy dstPath srcURL resp ;;
                  match err with
                  | Some err => ret (Some (Errorf "failed to save file" err))
                  | None => ret None
                  end)
            end)
      end
  end.

Definition renderNodeToFile (element : html_Node) (filename : path) : M (option error) :=
  cerr <- os_Create filename ;;
  match cerr with
  | Some err => ret (Some (Errorf "failed to create html file" err))
  | None => defer (EvClose filename) (html_Render_to filename element)
  end.

Record metadata := {
  md_Title : string;
  md_Byline : string;
  md_Excerpt : string;
  md_Language : string;
  md_SiteName : string;
  md_Readerable : bool
}.

(** The struct tags of [metadata], in the order of declaration. *)
Definition metadata_fields (md : metadata) : list jfield :=
  [ {| jkey := "title"; omitempty := true; jval := JString (md_Title md) |};
    {| jkey := "byline"; omitempty := true; jval := JString (md_Byline md) |};
    {| jkey := "excerpt"; omitempty := true; jval := JString (md_Excerpt md) |};
    {| jkey := "language"; omitempty := true; jval := JString (md_Language md) |};
    {| jkey := "siteName"; omitempty := true; jval := JString (md_SiteName md) |};
    {| jkey := "readerable"; omitempty := false; jval := JBool (md_Readerable md) |} ].

Definition metadata_of (article : Article html_Node) (readerable : bool) : metadata :=
  {| md_Title := Title article;
     md_Byline := Byline article;
     md_Excerpt := Excerpt article;
     md_Language := Language article;
     md_SiteName := SiteName article;
     md_Readerable := readerable |}.

Definition renderMetadataToFile (original : nat) (article : Article html_Node)
    (filename : path) : M (option error) :=
  cerr <- os_Create filename ;;
  match cerr with
  | Some err => ret (Some (Errorf "failed to create metadata file" err))
  | None =>
      defer (EvClose filename) (
        readerable <- readability_CheckDocument original ;;
        let metadata := metadata_of article readerable in
        match json_MarshalIndent (metadata_fields metadata) "" "    " with
        | inl err => ret (Some (Errorf "failed to marshal json" err))
        | inr bt =>
            werr <- file_Write filename bt ;;
            match werr with
            | Some err => ret (Some (Errorf "failed to write metadata file" err))
            | None => file_Sync filename
            end
        end)
  end.

Definition fakehost : string := "http://fakehost/test/page.html".

(** The [*URL] that [nurl.ParseRequestURI] returns next to its error: [nil]
    when there is an error. *)
Definition parsed (rawURL : string) : option string :=
  match nurl_ParseRequestURI rawURL with
  | None => Some rawURL
  | Some _ => None
  end.

Definition generateTestcase (testName sourceURL : string) : M (option error) :=
  log_Println (LGenerating testName) ;;;
  let testDir := fp_Join [seg "test-pages"; seg testName] in
  let sourcePath := fp_Join [testDir; seg "source.html"] in
  present <- fileExists sourcePath ;;
  derr <- (if negb present || negb (bool_decide (sourceURL = EmptyString))
           then log_Println (LDownloading testName sourceURL) ;;;
                downloadWebPage sourceURL sourcePath
           else ret None) ;;
  match derr with
  | Some err => ret (Some (Errorf "failed to download source" err))
  | None =>
      oerr <- os_Open sourcePath ;;
      match oerr with
      | Some err => ret (Some (Errorf "failed to open source" err))
      | None =>
          defer (EvClose sourcePath) (
            pr <- dom_Parse_file sourcePath ;;
            match pr with
            | inl err => ret (Some (Errorf "failed to decode source" err))
            | inr doc =>
                let parsedURL := parsed fakehost in
                ar <- readability_FromDocument doc parsedURL ;;
                match ar with
                | inl err => ret (Some (Errorf "failed to parse source" err))
                | inr article =>
                    let dstPath := fp_Join [testDir; seg "expected.html"] in
                    rerr <- renderNodeToFile (ArticleNode article) dstPath ;;
                    match rerr with
                    | Some err => ret (Some (Errorf "failed to render result" err))
                    | None =>
                        let dstPath := fp_Join [testDir; seg "expected-metadata.json"] in
                        merr <- renderMetadataToFile doc article dstPath ;;
                        match merr with
                        | Some err => ret (Some (Errorf "failed to render metadata" err))
                        | None => ret None
                        end
                    end
                end
            end)
      end
  end.

(** [generateTestcase] from the opening of the source file on. *)
Definition process_source (testDir sourcePath : path) : M (option error) :=
  oerr <- os_Open sourcePath ;;
  match oerr with
  | Some err => ret (Some (Errorf "failed to open source" err))
  | None =>
      defer (EvClose sourcePath) (
        pr <- dom_Parse_file sourcePath ;;
        match pr with
        | inl err => ret (Some (Errorf "failed to decode source" err))
        | inr doc =>
            let parsedURL := parsed fakehost in
            ar <- readability_FromDocument doc parsedURL ;;
            match ar with
            | inl err => ret (Some (Errorf "failed to parse source" err))
            | inr article =>
                let dstPath := fp_Join [testDir; seg "expected.html"] in
                rerr <- renderNodeToFile (ArticleNode article) dstPath ;;
                match rerr with
                | Some err => ret (Some (Errorf "failed to render result" err))
                | None =>
                    let dstPath := fp_Join [testDir; seg "expected-metadata.json"] in
                    merr <- renderMetadataToFile doc article dstPath ;;
                    match merr with
                    | Some err => ret (Some (Errorf "failed to render metadata" err))
                    | None => ret None
                    end
                end
            end
        end)
  end.

(** What a source text becomes: the rendered article and the metadata
    record, the flag being computed on the tree the engine leaves behind. *)
Definition outputs_of (data : string) : option (string * string) :=
  match dom_Parse data with
  | inl _ => None
  | inr doc =>
      match FromDocument doc (parsed fakehost) with
      | (inl _, _) => None
      | (inr article, doc') =>
          match (html_Render (ArticleNode article)).2,
                json_MarshalIndent
                  (metadata_fields (metadata_of article (CheckDocument doc'))) "" "    " with
          | None, inr bt => Some ((html_Render (ArticleNode article)).1, bt)
          | _, _ => None
          end
      end
  end.

Definition has_file (f : gmap path node) (p : path) : Prop :=
  ∃ data, f !! p = Some (File data).

Definition is_file (f : gmap path node) (p : path) : bool :=
  match f !! p with
  | Some (File _) => true
  | _ => false
  end.

(** The fixture of a test case is on disk and is the one of its source. *)
Definition has_outputs (f : gmap path node) (testName : string) : Prop :=
  ∃ data html meta,
    f !! ["test-pages"; testName; "source.html"] = Some (File data)
    ∧ outputs_of data = Some (html, meta)
    ∧ f !! ["test-pages"; testName; "expected.html"] = Some (File html)
    ∧ f !! ["test-pages"; testName; "expected-metadata.json"] = Some (File meta).


(** The test names in the lines [generating test for ...] of a run. *)
Definition generated (evs : list event) : list string :=
  omap (λ e, match e with EvLog (LGenerating n) => Some n | _ => None end) evs.

Definition is_download_log (e : event) : bool :=
  match e with
  | EvLog (LDownloading _ _) => true
  | _ => false
  end.

(** An entry of the root that batch mode regenerates. *)
Definition qualifies (f : gmap path node) (item : DirEntry) : bool :=
  IsDir item && is_file f ["test-pages"; Name item; "source.html"].

(** The body of [for _, item := range dirItems]. *)
Fixpoint for_dirItems (dirItems : list DirEntry) : M unit :=
  match dirItems with
  | [] => ret ()
  | item :: rest =>
      if negb (IsDir item) then for_dirItems rest
      else
        present <- fileExists (fp_Join [seg "test-pages"; seg (Name item); seg "source.html"]) ;;
        if negb present then for_dirItems rest
        else
          err <- generateTestcase (Name item) EmptyString ;;
          match err with
          | Some err => log_Fatal (LFailedGenerate (Name item) err)
          | None => for_dirItems rest
          end
  end.

Definition get_arguments (os_Args : list string) : M (string * string) :=
  match os_Args with
  | [_; a1] => ret (a1, EmptyString)
  | [_; a1; a2] => ret (a1, a2)
  | [] => log_Fatal LNeedArgument
  | _ => log_Fatal LMaxTwoArguments
  end.

Definition main (os_Args : list string) : M unit :=
  args <- get_arguments os_Args ;;
  let '(testName, sourceURL) := args in
  (if bool_decide (testName = EmptyString) then log_Fatal LTestNameUndefined else ret ()) ;;;
  (if negb (bool_decide (sourceURL = EmptyString))
   then match nurl_ParseRequestURI sourceURL with
        | Some err => log_Fatal (LURLNotValid sourceURL err)
        | None => ret ()
        end
   else ret ()) ;;;
  if bool_decide (testName = "all")
  then
    r <- ioutil_ReadDir (seg "test-pages") ;;
    match r with
    | inl err => log_Fatal (LReadDirFailed err)
    | inr dirItems => for_dirItems dirItems
    end
  else
    err <- generateTestcase testName sourceURL ;;
    match err with
    | Some err => log_Fatal (LFailedGenerate testName err)
    | None => ret ()
    end.

(** The part of [main] that runs when the test name is [all]. *)
Definition batch_mode : M unit :=
  r <- ioutil_ReadDir (seg "test-pages") ;;
  match r with
  | inl err => log_Fatal (LReadDirFailed err)
  | inr dirItems => for_dirItems dirItems
  end.

(** ** Vocabulary of the properties *)

(** The run leaves the environment alone, changes no file outside [S] and
    only talks to the file system; [stays_in] adds that the process does not
    exit. *)
Definition local_to (S : path → Prop) (w w' : World) (evs : list event) : Prop :=
  blocked w' = blocked w ∧ ioerr w' = ioerr w ∧ net w' = net w
  ∧ (∀ p, ¬ S p → fs w' !! p = fs w !! p)
  ∧ Forall (λ e, is_fs e = true) evs.

Definition stays_in (S : path → Prop) {A} (m : M A) : Prop :=
  ∀ w, local_to S w (world (m w)) (events (m w)) ∧ ∀ l, out (m w) ≠ Fatal l.

(** The two files that a generation writes under a test directory. *)
Definition outputs (testDir : path) (p : path) : Prop :=
  p = testDir ++ ["expected.html"] ∨ p = testDir ++ ["expected-metadata.json"].

Definition touched (items : list DirEntry) (p : path) : Prop :=
  ∃ item, In item items ∧ outputs ["test-pages"; Name item] p.

(** The batch over [items] ends in [log.Fatal] with the line [l]: the
    entries before [item] went through, the generation of [item] returned
    an error, and nothing ran after it. *)
Definition fails_at (items : list DirEntry) (w : World) (r : run ()) (l : logline) : Prop :=
  ∃ pre item post e,
    items = pre ++ item :: post
    ∧ qualifies (fs w) item = true
    ∧ blocked w !! ["test-pages"; Name item; "source.html"] = None
    ∧ l = LFailedGenerate (Name item) e
    ∧ out (for_dirItems pre w) = Ret ()
    ∧ out (generateTestcase (Name item) EmptyString (world (for_dirItems pre w)))
      = Ret (Some e)
    ∧ world r = world (generateTestcase (Name item) EmptyString (world (for_dirItems pre w)))
    ∧ generated (events r) = map Name (List.filter (qualifies (fs w)) pre) ++ [Name item].

End Script.

Arguments Run {C A} _ _ _.
Arguments out {C A} _.
Arguments world {C A} _.
Arguments events {C A} _.

Notation "x <- m ;; k" := (bind m (λ x, k))
  (at level 100, m at next level, right associativity).
Notation "m ;;; k" := (bind m (λ _, k))
  (at level 100, right associativity).

(** ** A stand-in for the collaborators

    Documents are their own source text, the engine gives every non-empty
    document the same metadata, and the string encoder escapes the quote, the
    backslash and the line feed.  The URL check passes what starts with
    [http://], [https://] or [/]: [ParseRequestURI] of net/url reads its
    argument as an absolute URI or as an absolute path, and so accepts a
    path such as [/foo]; it refuses [not-a-url]. *)

Definition fake_ParseRequestURI (s : string) : option error :=
  if String.prefix "http://" s || String.prefix "https://" s || String.prefix "/" s
  then None
  else Some (ErrText "invalid URI for request").

Fixpoint fake_escape (s : string) : string :=
  match s with
  | EmptyString => EmptyString
  | String c rest =>
      (if decide (c = Ascii.ascii_of_nat 10) then "\n"
       else if decide (c = Ascii.ascii_of_nat 34) then "\" +:+ dq
       else if decide (c = Ascii.ascii_of_nat 92) then "\\"
       else String c EmptyString) +:+ fake_escape rest
  end.

Definition fake_FromDocument (n : string) (pageURL : option string)
  : (error + Article string) * string :=
  (if decide (n = EmptyString) then inl (ErrText "no content")
   else inr {| Title := "Hello"; Byline := EmptyString; Excerpt := EmptyString;
               Language := "en"; SiteName := EmptyString; ArticleNode := n |},
   n).

Definition fake : Collaborators := {|
  html_Node := string;
  nurl_ParseRequestURI := fake_ParseRequestURI;
  dom_Parse := λ s, inr s;
  FromDocument := fake_FromDocument;
  CheckDocument := λ n, negb (bool_decide (n = EmptyString));
  html_Render := λ n, (n, None);
  json_encodeString := λ s, dq +:+ fake_escape s +:+ dq
|}.

Definition sample_fs : gmap path node :=
  {[ ["test-pages"] := Dir;
     ["test-pages"; "a"] := Dir;
     ["test-pages"; "a"; "source.html"] := File "<p>hi</p>";
     ["test-pages"; "b"] := Dir;
     ["test-pages"; "c.txt"] := File "x" ]}.

Definition sample_world : @World fake := {|
  fs := sample_fs;
  blocked := ∅;
  ioerr := ∅;
  net := λ _, NoResponse (ErrText "connection refused");
  heap := ∅
|}.




(** An engine that empties the document it is given. *)
Definition mutating : Collaborators := {|
  html_Node := string;
  nurl_ParseRequestURI := fake_ParseRequestURI;
  dom_Parse := λ s, inr s;
  FromDocument := λ n u, ((fake_FromDocument n u).1, EmptyString);
  CheckDocument := λ n, negb (bool_decide (n = EmptyString));
  html_Render := λ n, (n, None);
  json_encodeString := λ s, dq +:+ fake_escape s +:+ dq
|}.

Definition mutating_world : @World mutating := {|
  fs := sample_fs;
  blocked := ∅;
  ioerr := ∅;
  net := λ _, NoResponse (ErrText "connection refused");
  heap := ∅
|}.

Definition sample_listing : list DirEntry :=
  [ {| Name := "a"; IsDir := true |};
    {| Name := "b"; IsDir := true |};
    {| Name := "c.txt"; IsDir := false |} ].


(** ** Further vocabulary *)


Section Further.
Context `{C : Collaborators}.

(** [os.Create] succeeds on [p]. *)
Definition can_create (w : World) (p : path) : Prop :=
  blocked w !! p = None ∧ fs w !! p ≠ Some Dir ∧ parent_is_dir w p = true.

End Further.

(** Further worlds of the stand-in: a network that delivers a page, a
    disk on which the metadata file of case [a] cannot be written, a heap
    holding one parsed document, and an empty disk. *)
Definition online_world : @World fake := {|
  fs := sample_fs;
  blocked := ∅;
  ioerr := ∅;
  net := λ _, Response "<p>page</p>" None;
  heap := ∅
|}.

Definition faulty_world : @World fake := {|
  fs := sample_fs;
  blocked := ∅;
  ioerr := {[ ["test-pages"; "a"; "expected-metadata.json"] ]};
  net := λ _, NoResponse (ErrText "connection refused");
  heap := ∅
|}.

Definition parsed_world : @World fake := {|
  fs := sample_fs;
  blocked := ∅;
  ioerr := ∅;
  net := λ _, NoResponse (ErrText "connection refused");
  heap := {[ 0 := "<p>hi</p>" ]}
|}.

Definition empty_world : @World fake := {|
  fs := ∅;
  blocked := ∅;
  ioerr := ∅;
  net := λ _, NoResponse (ErrText "connection refused");
  heap := ∅
|}.





(** The sample corpus with [source.html] of case [b] a symbolic link to
    itself: there is no such file, and the system refuses the stat. *)
Definition refused_world : @World fake := {|
  fs := sample_fs;
  blocked := {[ ["test-pages"; "b"; "source.html"] := Loop ]};
  ioerr := ∅;
  net := λ _, Response "<p>page</p>" None;
  heap := ∅
|}.

(** A corpus of a directory [a] that holds nothing but such a link, and a
    test case [b]. *)
Definition refused_corpus : gmap path node :=
  {[ ["test-pages"] := Dir;
     ["test-pages"; "a"] := Dir;
     ["test-pages"; "b"] := Dir;
     ["test-pages"; "b"; "source.html"] := File "<p>hi</p>" ]}.

Definition refused_corpus_world : @World fake := {|
  fs := refused_corpus;
  blocked := {[ ["test-pages"; "a"; "source.html"] := Loop ]};
  ioerr := ∅;
  net := λ _, NoResponse (ErrText "connection refused");
  heap := ∅
|}.

(** * Properties *)

Ltac inner_case :=
  match goal with
  | |- context [match ?x with _ => _ end] =>
      lazymatch x with
      | context [match _ with _ => _ end] => fail
      | _ =>
          lazymatch type of x with
          | run _ =>
              let o := fresh "o" in
              let w := fresh "w" in
              let ev := fresh "ev" in
              destruct x as [o w ev] eqn:?
          | _ => destruct x eqn:?
          end
      end
  end.

Ltac run_cases :=
  repeat (cbn [out world events fs heap blocked ioerr net with_fs with_heap fst snd] in *;
          try inner_case);
  try discriminate.

Section FileExists.
Context `{C : Collaborators}.

(** ** fileExists *)

Lemma fileExists_run (p : path) (w : World) :
  fileExists p w =
  match stat_result w p with
  | (Some i, None) => Run (Ret (negb (fi_IsDir i))) w [EvStat p]
  | (None, None) => Run Panic w [EvStat p]
  | (_, Some (PathError ENOENT)) => Run (Ret false) w [EvStat p]
  | (Some i, Some _) => Run (Ret (negb (fi_IsDir i))) w [EvStat p]
  | (None, Some _) => Run Panic w [EvStat p]
  end.
Proof.
  unfold fileExists, bind, os_Stat; simpl.
  destruct (stat_result w p) as [[i|] [[[]| |]|]]; reflexivity.
Qed.

(** C9: [fileExists] panics exactly when [os.Stat] fails with an error
    that is not a not-exist error (the [FileInfo] is then [nil] and
    [info.IsDir()] dereferences it); when the stat succeeds or reports
    not-exist it returns a boolean. *)
Theorem fileExists_panics_iff (p : path) (w : World) :
  let err := (stat_result w p).2 in
  (out (fileExists p w) = Panic ↔ err ≠ None ∧ os_IsNotExist err = false)
  ∧ (err = None ∨ os_IsNotExist err = true → ∃ b, out (fileExists p w) = Ret b).
Proof.
  rewrite fileExists_run. unfold stat_result.
  destruct (blocked w !! p) as [[]|]; simpl.
  all: try destruct (fs w !! p) as [[]|]; simpl.
  all: intuition (try discriminate; try congruence; eauto).
Qed.

End FileExists.

(** ** Runs that stay within a set of paths *)

Section Frames.
Context `{C : Collaborators}.

Lemma local_to_refl S w : local_to S w w [].
Proof. repeat split; auto. Qed.

Lemma local_to_seq S w1 w2 w3 e1 e2 :
  local_to S w1 w2 e1 → local_to S w2 w3 e2 → local_to S w1 w3 (e1 ++ e2).
Proof.
  intros (Hb1 & Hi1 & Hn1 & Hf1 & He1) (Hb2 & Hi2 & Hn2 & Hf2 & He2).
  repeat split; try congruence.
  - intros p Hp. rewrite Hf2, Hf1; auto.
  - apply Forall_app; auto.
Qed.

Lemma local_to_one S w e : is_fs e = true → local_to S w w [e].
Proof. intros He. repeat split; auto. Qed.

Lemma stays_in_ret S {A} (a : A) : stays_in S (ret a).
Proof. intros w. split; [apply local_to_refl | discriminate]. Qed.

Lemma stays_in_bind S {A B} (m : M A) (k : A → M B) :
  stays_in S m → (∀ a, stays_in S (k a)) → stays_in S (bind m k).
Proof.
  intros Hm Hk w. unfold bind. destruct (Hm w) as [Hl Hf].
  destruct (m w) as [[a|l|] w1 ev1]; cbn [out world events] in *.
  - destruct (Hk a w1) as [Hl' Hf'].
    destruct (k a w1) as [o w2 ev2]; cbn [out world events] in *.
    split; [eapply local_to_seq; eassumption | exact Hf'].
  - destruct (Hf l eq_refl).
  - split; [exact Hl | discriminate].
Qed.

Lemma stays_in_defer S {A} (e : event) (body : M A) :
  is_fs e = true → stays_in S body → stays_in S (defer e body).
Proof.
  intros He Hb w. unfold defer. destruct (Hb w) as [Hl Hf].
  destruct (body w) as [[a|l|] w1 ev1]; cbn [out world events] in *.
  - split; [|discriminate].
    eapply local_to_seq; [exact Hl | apply local_to_one; exact He].
  - destruct (Hf l eq_refl).
  - split; [|discriminate].
    eapply local_to_seq; [exact Hl | apply local_to_one; exact He].
Qed.

Lemma stays_in_Open S p : stays_in S (os_Open p).
Proof.
  intros w. unfold os_Open.
  destruct (blocked w !! p); [|destruct (fs w !! p)]; simpl;
    (split; [apply local_to_one; reflexivity | discriminate]).
Qed.

Lemma stays_in_Create (S : path → Prop) p : S p → stays_in S (os_Create p).
Proof.
  intros Hp w. unfold os_Create.
  assert (local_to S w (with_fs (<[p:=File EmptyString]> (fs w)) w) [EvCreate p]).
  { repeat split; auto. simpl. intros q Hq. apply lookup_insert_ne. congruence. }
  destruct (blocked w !! p); [|destruct (fs w !! p) as [[]|]; destruct (parent_is_dir w p)];
    simpl; (split; [auto; apply local_to_one; reflexivity | discriminate]).
Qed.

Lemma stays_in_Write (S : path → Prop) p data : S p → stays_in S (file_Write p data).
Proof.
  intros Hp w. unfold file_Write.
  destruct (decide (p ∈ ioerr w)); simpl; (split; [|discriminate]).
  - apply local_to_one; reflexivity.
  - repeat split; auto. simpl. intros q Hq. apply lookup_alter_ne. congruence.
Qed.

Lemma stays_in_Sync S p : stays_in S (file_Sync p).
Proof.
  intros w. unfold file_Sync.
  destruct (decide (p ∈ ioerr w)); simpl;
    (split; [apply local_to_one; reflexivity | discriminate]).
Qed.

Lemma stays_in_Parse S p : stays_in S (dom_Parse_file p).
Proof.
  intros w. unfold dom_Parse_file.
  destruct (fs w !! p) as [[data|]|]; [destruct (dom_Parse data)| |]; simpl;
    (split; [|discriminate]); try (apply local_to_one; reflexivity).
  repeat split; auto.
Qed.

Lemma stays_in_FromDocument S doc u : stays_in S (readability_FromDocument doc u).
Proof.
  intros w. unfold readability_FromDocument.
  destruct (heap w !! doc); [destruct (FromDocument _ _)|]; simpl;
    (split; [repeat split; auto | discriminate]).
Qed.

Lemma stays_in_CheckDocument S doc : stays_in S (readability_CheckDocument doc).
Proof.
  intros w. unfold readability_CheckDocument.
  destruct (heap w !! doc); simpl; (split; [apply local_to_refl | discriminate]).
Qed.

Ltac stays_step :=
  first
    [ apply stays_in_ret
    | apply stays_in_Open
    | apply stays_in_Sync
    | apply stays_in_Parse
    | apply stays_in_FromDocument
    | apply stays_in_CheckDocument
    | apply stays_in_Create; solve [auto]
    | apply stays_in_Write; solve [auto]
    | apply stays_in_defer; [reflexivity|]
    | apply stays_in_bind; [|intros ?]
    | match goal with
      | |- stays_in _ (match ?x with _ => _ end) => destruct x
      end ].

Lemma stays_in_renderNodeToFile (S : path → Prop) el p :
  S p → stays_in S (renderNodeToFile el p).
Proof. intros Hp. unfold renderNodeToFile, html_Render_to. repeat stays_step. Qed.

Lemma stays_in_renderMetadataToFile (S : path → Prop) doc art p :
  S p → stays_in S (renderMetadataToFile doc art p).
Proof. intros Hp. unfold renderMetadataToFile. repeat stays_step. Qed.

Lemma stays_in_process_source testDir src :
  stays_in (outputs testDir) (process_source testDir src).
Proof.
  unfold process_source.
  repeat first
    [ apply stays_in_renderNodeToFile; left; reflexivity
    | apply stays_in_renderMetadataToFile; right; reflexivity
    | stays_step ].
Qed.

End Frames.

(** ** What a successful generation leaves on disk *)

Section Success.
Context `{C : Collaborators}.

Lemma renderNodeToFile_success el p w :
  let r := renderNodeToFile el p w in
  out r = Ret None →
  fs (world r) !! p = Some (File (html_Render el).1)
  ∧ (html_Render el).2 = None
  ∧ heap (world r) = heap w.
Proof.
  unfold renderNodeToFile, html_Render_to, os_Create, file_Write.
  unfold bind, defer, ret. run_cases.
  all: intros [= ->]; rewrite lookup_alter_eq, lookup_insert_eq; auto.
Qed.

Lemma renderMetadataToFile_success doc art p w :
  let r := renderMetadataToFile doc art p w in
  out r = Ret None →
  ∃ n bt, heap w !! doc = Some n
    ∧ json_MarshalIndent (metadata_fields (metadata_of art (CheckDocument n))) "" "    " = inr bt
    ∧ fs (world r) !! p = Some (File bt)
    ∧ In (EvSync p) (events r).
Proof.
  unfold renderMetadataToFile, readability_CheckDocument, os_Create, file_Write, file_Sync.
  unfold bind, defer, ret. run_cases.
  all: intros _; eexists _, _; split; [reflexivity|]; split; [eassumption|].
  all: rewrite lookup_alter_eq, lookup_insert_eq; simpl; split; [reflexivity|].
  all: simpl; auto 10.
Qed.

Lemma process_source_success testDir w :
  let src := testDir ++ ["source.html"] in
  let r := process_source testDir src w in
  out r = Ret None →
  ∃ data html meta,
    fs w !! src = Some (File data)
    ∧ outputs_of data = Some (html, meta)
    ∧ fs (world r) !! (testDir ++ ["expected.html"]) = Some (File html)
    ∧ fs (world r) !! (testDir ++ ["expected-metadata.json"]) = Some (File meta).
Proof.
  unfold process_source, os_Open, dom_Parse_file, readability_FromDocument.
  unfold bind, defer, ret. run_cases.
  all: intros _.
  all: match goal with
       | H : <[_:=_]> _ !! _ = Some _ |- _ => rewrite lookup_insert_eq in H
       end; simplify_eq.
  all: match goal with
       | H1 : renderNodeToFile ?el ?p ?w1 = Run (Ret None) ?w2 _,
         H2 : renderMetadataToFile ?d ?a ?q ?w2 = Run (Ret None) ?w3 _ |- _ =>
           pose proof (renderNodeToFile_success el p w1) as Hn;
           pose proof (renderMetadataToFile_success d a q w2) as Hm;
           pose proof (stays_in_renderMetadataToFile (λ x, x = q) d a q eq_refl w2) as Hs;
           rewrite H1 in Hn; rewrite H2 in Hm, Hs; cbn [out world events] in Hn, Hm, Hs;
           destruct (Hn eq_refl) as (Hhtml & Hrender & Hheap);
           destruct (Hm eq_refl) as (n' & bt & Hdoc & Hjson & Hmeta & _);
           destruct Hs as [(_ & _ & _ & Hframe & _) _]
       end.
  all: rewrite Hheap in Hdoc; simpl in Hdoc; rewrite lookup_insert_eq in Hdoc.
  all: injection Hdoc as <-.
  all: eexists _, _, bt; split; [reflexivity|]; split.
  all: try (unfold outputs_of;
            repeat match goal with
                   | H : dom_Parse _ = _ |- _ => rewrite H
                   | H : FromDocument _ _ = _ |- _ => rewrite H
                   end;
            rewrite Hrender, Hjson; reflexivity).
  all: split; [|exact Hmeta].
  all: rewrite Hframe; [exact Hhtml|].
  all: intros Heq; apply app_inv_head in Heq; discriminate.
Qed.
End Success.

(** ** generateTestcase: reuse or download *)

Section Generate.
Context `{C : Collaborators}.

Lemma bind_Ret {A B} (m : M A) (k : A → M B) w a w1 ev :
  m w = Run (Ret a) w1 ev →
  bind m k w = Run (out (k a w1)) (world (k a w1)) (ev ++ events (k a w1)).
Proof. intros H. unfold bind. rewrite H. destruct (k a w1); reflexivity. Qed.

Lemma generateTestcase_eq testName sourceURL :
  generateTestcase testName sourceURL =
  let testDir := ["test-pages"; testName] in
  let sourcePath := ["test-pages"; testName; "source.html"] in
  (log_Println (LGenerating testName) ;;;
   present <- fileExists sourcePath ;;
   derr <- (if negb present || negb (bool_decide (sourceURL = EmptyString))
            then log_Println (LDownloading testName sourceURL) ;;;
                 downloadWebPage sourceURL sourcePath
            else ret None) ;;
   match derr with
   | Some err => ret (Some (Errorf "failed to download source" err))
   | None => process_source testDir sourcePath
   end).
Proof. reflexivity. Qed.

Lemma fileExists_file p w data :
  blocked w !! p = None → fs w !! p = Some (File data) →
  fileExists p w = Run (Ret true) w [EvStat p].
Proof.
  intros Hb Hf. rewrite fileExists_run. unfold stat_result. rewrite Hb, Hf. reflexivity.
Qed.

Lemma fileExists_no_file p w :
  blocked w !! p = None → is_file (fs w) p = false →
  fileExists p w = Run (Ret false) w [EvStat p].
Proof.
  intros Hb Hf. rewrite fileExists_run. unfold stat_result, is_file in *. rewrite Hb.
  destruct (fs w !! p) as [[]|]; try discriminate; reflexivity.
Qed.

Lemma generateTestcase_reuse testName w data :
  let src := ["test-pages"; testName; "source.html"] in
  blocked w !! src = None → fs w !! src = Some (File data) →
  generateTestcase testName EmptyString w =
  let r := process_source ["test-pages"; testName] src w in
  Run (out r) (world r) ([EvLog (LGenerating testName); EvStat src] ++ events r).
Proof.
  intros src Hb Hf. subst src. rewrite generateTestcase_eq. cbv zeta.
  erewrite bind_Ret; [|reflexivity].
  erewrite bind_Ret; [|eapply fileExists_file; eassumption].
  rewrite (bool_decide_eq_true_2 (EmptyString = EmptyString) eq_refl).
  erewrite bind_Ret; [|reflexivity].
  reflexivity.
Qed.

Lemma fileExists_definite p w :
  blocked w !! p = None →
  fileExists p w = Run (Ret (is_file (fs w) p)) w [EvStat p].
Proof.
  intros Hb. rewrite fileExists_run. unfold stat_result, is_file. rewrite Hb.
  destruct (fs w !! p) as [[]|]; reflexivity.
Qed.

Lemma downloadWebPage_invalid url p w e :
  nurl_ParseRequestURI url = Some e →
  downloadWebPage url p w = Run (Ret (Some (Errorf "failed to parse URL" e))) w [].
Proof. intros H. unfold downloadWebPage. rewrite H. reflexivity. Qed.

Lemma downloadWebPage_valid url p w :
  nurl_ParseRequestURI url = None →
  ∃ rest, events (downloadWebPage url p w) = EvGet url :: rest.
Proof.
  intros H. unfold downloadWebPage. rewrite H.
  destruct (net w url) as [e|received rerr] eqn:Hn.
  all: erewrite bind_Ret; [|unfold httpClient_Get; rewrite Hn; reflexivity].
  all: cbn [events app]; eauto.
Qed.

Lemma downloadWebPage_returns url p w :
  ∃ o, out (downloadWebPage url p w) = Ret o.
Proof.
  unfold downloadWebPage, httpClient_Get, os_MkdirAll, os_Create, io_Copy, file_Write, emit.
  unfold bind, defer, ret. run_cases; eauto.
Qed.

Lemma fs_events_quiet evs :
  Forall (λ e, is_fs e = true) evs →
  Forall (λ e, is_net e = false ∧ is_download_log e = false) evs.
Proof.
  intros H. eapply Forall_impl; [exact H|].
  intros []; simpl; intros; try discriminate; auto.
Qed.

Lemma generateTestcase_download_events testName url w :
  let src := ["test-pages"; testName; "source.html"] in
  blocked w !! src = None →
  is_file (fs w) src = false ∨ url ≠ EmptyString →
  ∃ rest,
    events (generateTestcase testName url w) =
      [EvLog (LGenerating testName); EvStat src; EvLog (LDownloading testName url)]
      ++ events (downloadWebPage url src w) ++ rest
    ∧ Forall (λ e, is_fs e = true) rest.
Proof.
  intros src Hb Hc. subst src. rewrite generateTestcase_eq. cbv zeta.
  erewrite bind_Ret; [|reflexivity].
  erewrite bind_Ret; [|eapply fileExists_definite; eassumption].
  assert (negb (is_file (fs w) ["test-pages"; testName; "source.html"])
          || negb (bool_decide (url = EmptyString)) = true) as ->.
  { destruct Hc as [-> | Hu]; [reflexivity|].
    rewrite (bool_decide_eq_false_2 _ Hu). apply orb_true_r. }
  destruct (downloadWebPage_returns url ["test-pages"; testName; "source.html"] w)
    as [o' Ho].
  erewrite (bind_Ret (bind _ _)).
  2: { erewrite bind_Ret; [|reflexivity]. rewrite Ho. reflexivity. }
  destruct o' as [err|]; cbn [out world events ret].
  - exists []. split; [|constructor].     cbn [app]. rewrite <- ?app_assoc. reflexivity.
  - eexists. split.
    + cbn [app]. rewrite <- ?app_assoc. reflexivity.
    + apply (stays_in_process_source ["test-pages"; testName]).
Qed.

Lemma download_branch testName url w :
  let src := ["test-pages"; testName; "source.html"] in
  let r := generateTestcase testName url w in
  blocked w !! src = None →
  is_file (fs w) src = false ∨ url ≠ EmptyString →
  Exists (λ e, is_download_log e = true) (events r)
  ∧ (Exists (λ e, is_net e = true) (events r) ↔ nurl_ParseRequestURI url = None).
Proof.
  intros src r Hb Hc. subst r src.
  destruct (generateTestcase_download_events testName url w Hb Hc) as (rest & -> & Hrest).
  apply fs_events_quiet in Hrest. split; [|split].
  - apply List.Exists_exists.
    exists (EvLog (LDownloading testName url)). split; [|reflexivity].
    simpl. auto.
  - intros Hex.
    destruct (nurl_ParseRequestURI url) as [e|] eqn:Hp; [|reflexivity].
    rewrite (downloadWebPage_invalid _ _ _ _ Hp) in Hex. cbn [events] in Hex.
    apply List.Exists_exists in Hex as (e' & He & Hn).
    simpl in He. destruct He as [<-|[<-|[<-|He]]]; try discriminate.
    rewrite List.Forall_forall in Hrest. destruct (Hrest e' He). congruence.
  - intros Hp.
    destruct (downloadWebPage_valid url ["test-pages"; testName; "source.html"] w Hp)
      as [tl ->].
    apply List.Exists_exists. exists (EvGet url). split; [|reflexivity].
    simpl. auto.
Qed.

(** The decision of [generateTestcase] once [fileExists] has returned:
    as long as the stat of the source path gives an answer (the file
    is there, or it is not), the download step of [generateTestcase] is
    entered exactly when there is no file [source.html] or the URL is not
    empty, and the HTTP client is then called exactly when the URL parses;
    with the file there and no URL, nothing goes over the network and the
    file is afterwards what it was. *)
Theorem download_decision (testName sourceURL : string) (w : World) :
  let sourcePath := ["test-pages"; testName; "source.html"] in
  let r := generateTestcase testName sourceURL w in
  blocked w !! sourcePath = None →
  (Exists (λ e, is_download_log e = true) (events r)
   ↔ is_file (fs w) sourcePath = false ∨ sourceURL ≠ EmptyString)
  ∧ (Exists (λ e, is_net e = true) (events r)
     ↔ (is_file (fs w) sourcePath = false ∨ sourceURL ≠ EmptyString)
       ∧ nurl_ParseRequestURI sourceURL = None)
  ∧ (is_file (fs w) sourcePath = true → sourceURL = EmptyString →
     Forall (λ e, is_net e = false) (events r)
     ∧ fs (world r) !! sourcePath = fs w !! sourcePath).
Proof.
  intros src r Hb.
  destruct (decide (is_file (fs w) src = false ∨ sourceURL ≠ EmptyString)) as [Hc|Hc].
  { destruct (download_branch testName sourceURL w Hb Hc) as [Hlog Hnet].
    fold src in Hlog, Hnet. fold r in Hlog, Hnet.
    split; [tauto|]. split; [tauto|].
    intros Hfile Hurl. destruct Hc; congruence. }
  assert (is_file (fs w) src = true ∧ sourceURL = EmptyString) as [Hfile ->].
  { destruct (is_file (fs w) src), (decide (sourceURL = EmptyString)); tauto. }
  subst r. unfold is_file in Hfile.
  destruct (fs w !! src) as [[data|]|] eqn:Hf; try discriminate.
  rewrite (generateTestcase_reuse testName w data Hb Hf). cbv zeta. cbn [out world events].
  destruct (stays_in_process_source ["test-pages"; testName] src w)
    as [(_ & _ & _ & Hframe & Hev) _].
  apply fs_events_quiet in Hev.
  assert (Forall (λ e, is_net e = false ∧ is_download_log e = false)
            ([EvLog (LGenerating testName); EvStat src]
             ++ events (process_source ["test-pages"; testName] src w))) as Hall.
  { apply Forall_app; split; [repeat constructor | exact Hev]. }
  rewrite List.Forall_forall in Hall.
  split; [|split].
  - split; [|tauto].
    intros Hex. apply List.Exists_exists in Hex as (e & He & Hd).
    destruct (Hall e He). congruence.
  - split; [|tauto].
    intros Hex. apply List.Exists_exists in Hex as (e & He & Hd).
    destruct (Hall e He). congruence.
  - intros _ _. split.
    + apply List.Forall_forall. intros e He. apply (Hall e He).
    + rewrite Hframe, Hf; [reflexivity|].
      intros [Heq|Heq]; apply (app_inv_head ["test-pages"; testName]) in Heq;
        discriminate.
Qed.

(** ** The readerable flag *)

Lemma bind_out_Ret {A B} (m : M A) (k : A → M B) w b :
  out (bind m k w) = Ret b →
  ∃ a w1 ev1, m w = Run (Ret a) w1 ev1
    ∧ out (k a w1) = Ret b
    ∧ world (bind m k w) = world (k a w1).
Proof.
  unfold bind. destruct (m w) as [[a|l|] w1 ev1]; try discriminate.
  destruct (k a w1) as [o w2 ev2] eqn:Hk. cbn [out world]. intros ->.
  exists a, w1, ev1. rewrite Hk. cbn [out world]. auto.
Qed.

Lemma generateTestcase_tail testName url w :
  let src := ["test-pages"; testName; "source.html"] in
  let r := generateTestcase testName url w in
  out r = Ret None →
  ∃ w1, out (process_source ["test-pages"; testName] src w1) = Ret None
        ∧ world r = world (process_source ["test-pages"; testName] src w1).
Proof.
  intros src r. subst r src. rewrite generateTestcase_eq. cbv zeta. intros H.
  apply bind_out_Ret in H as (? & w1 & ? & _ & H & ->).
  apply bind_out_Ret in H as (present & w2 & ? & _ & H & ->).
  apply bind_out_Ret in H as (derr & w3 & ? & _ & H & ->).
  destruct derr as [err|]; [discriminate|].
  exists w3. split; [exact H | reflexivity].
Qed.

End Generate.

(** ** downloadWebPage and the two renderers *)

Section Download.
Context `{C : Collaborators}.



(** [renderNodeToFile] creates, writes and closes; it has no call of
    [Sync], whatever it returns. *)
Lemma renderNodeToFile_never_syncs (element : html_Node) (filename : path) (w : World) :
  Forall (λ e, ∀ p, e ≠ EvSync p) (events (renderNodeToFile element filename w)).
Proof.
  unfold renderNodeToFile, html_Render_to, os_Create, file_Write.
  unfold bind, defer, ret. run_cases.
  all: repeat constructor; discriminate.
Qed.

End Download.

(** ** The metadata record *)

Section Metadata.
Context `{C : Collaborators}.















End Metadata.

(** ** main: arguments and URL validation *)

Section Arguments.
Context `{C : Collaborators}.



End Arguments.

(** ** What never panics *)

Section NoPanic.
Context `{C : Collaborators}.

Lemma renderNodeToFile_heap el p w :
  heap (world (renderNodeToFile el p w)) = heap w
  ∧ out (renderNodeToFile el p w) ≠ Panic.
Proof.
  unfold renderNodeToFile, html_Render_to, os_Create, file_Write.
  unfold bind, defer, ret. run_cases; split; auto; discriminate.
Qed.

Lemma renderMetadataToFile_no_panic doc art p w :
  is_Some (heap w !! doc) → out (renderMetadataToFile doc art p w) ≠ Panic.
Proof.
  intros [n Hn].
  unfold renderMetadataToFile, readability_CheckDocument, os_Create, file_Write, file_Sync.
  unfold bind, defer, ret. run_cases; try discriminate.
  all: congruence.
Qed.

Lemma process_source_no_panic testDir src w :
  out (process_source testDir src w) ≠ Panic.
Proof.
  unfold process_source, os_Open, dom_Parse_file, readability_FromDocument.
  unfold bind, defer, ret. run_cases; try discriminate.
  all: intros _.
  all: try match goal with
       | H : <[_:=_]> _ !! _ = None |- _ =>
           rewrite lookup_insert_eq in H; discriminate
       end.
  all: try match goal with
       | H : renderNodeToFile ?el ?p ?w1 = Run Panic _ _ |- _ =>
           destruct (renderNodeToFile_heap el p w1) as [_ Hn];
           rewrite H in Hn; apply Hn; reflexivity
       end.
  all: match goal with
       | H1 : renderNodeToFile ?el ?p ?w1 = Run _ ?w2 _,
         H2 : renderMetadataToFile ?d ?a ?q ?w2 = Run Panic _ _ |- _ =>
           destruct (renderNodeToFile_heap el p w1) as [Hh _];
           rewrite H1 in Hh; cbn [world heap with_heap] in Hh;
           apply (renderMetadataToFile_no_panic d a q w2);
           [rewrite Hh, lookup_insert_eq; eauto | rewrite H2; reflexivity]
       end.
Qed.
End NoPanic.

(** ** Batch mode *)

Section Batch.
Context `{C : Collaborators}.

Lemma generated_app e1 e2 : generated (e1 ++ e2) = generated e1 ++ generated e2.
Proof. apply omap_app. Qed.

Lemma generated_fs evs : Forall (λ e, is_fs e = true) evs → generated evs = [].
Proof.
  induction 1 as [|e evs He _ IH]; [reflexivity|].
  change (e :: evs) with ([e] ++ evs). rewrite generated_app, IH. destruct e; try reflexivity; discriminate.
Qed.

Lemma has_outputs_ext f f' n :
  (∀ x, f' !! ["test-pages"; n; x] = f !! ["test-pages"; n; x]) →
  has_outputs f n → has_outputs f' n.
Proof.
  intros H (data & html & meta & H1 & H2 & H3 & H4).
  exists data, html, meta. rewrite !H. auto.
Qed.

Lemma qualifies_ext f f' item :
  f' !! ["test-pages"; Name item; "source.html"] = f !! ["test-pages"; Name item; "source.html"] →
  qualifies f' item = qualifies f item.
Proof. intros H. unfold qualifies, is_file. rewrite H. reflexivity. Qed.

Lemma filter_qualifies_ext f f' items :
  (∀ n, f' !! ["test-pages"; n; "source.html"] = f !! ["test-pages"; n; "source.html"]) →
  List.filter (qualifies f') items = List.filter (qualifies f) items.
Proof.
  intros H. induction items as [|item items IH]; [reflexivity|].
  simpl. rewrite IH, (qualifies_ext f f' item (H _)). reflexivity.
Qed.

Lemma source_is_no_output dir n : ¬ outputs dir ["test-pages"; n; "source.html"].
Proof.
  intros [H|H].
  - apply (f_equal (@last string)) in H. rewrite last_snoc in H. discriminate.
  - apply (f_equal (@last string)) in H. rewrite last_snoc in H. discriminate.
Qed.

Lemma outputs_inv n p : outputs ["test-pages"; n] p → ∃ x, p = ["test-pages"; n; x].
Proof. intros [->| ->]; eauto. Qed.

(** One case of the batch, taken with the source in place. *)
Lemma generateTestcase_in_batch n w data :
  let src := ["test-pages"; n; "source.html"] in
  let g := generateTestcase n EmptyString w in
  blocked w !! src = None → fs w !! src = Some (File data) →
  blocked (world g) = blocked w
  ∧ (∀ p, ¬ outputs ["test-pages"; n] p → fs (world g) !! p = fs w !! p)
  ∧ Forall (λ e, is_net e = false ∧ is_download_log e = false) (events g)
  ∧ generated (events g) = [n]
  ∧ (∀ l, out g ≠ Fatal l)
  ∧ out g ≠ Panic
  ∧ (out g = Ret None → has_outputs (fs (world g)) n).
Proof.
  intros src g Hb Hf. subst g src.
  rewrite (generateTestcase_reuse n w data Hb Hf). cbv zeta. cbn [out world events].
  destruct (stays_in_process_source ["test-pages"; n] ["test-pages"; n; "source.html"] w)
    as [(Hbl & _ & _ & Hframe & Hev) Hnf].
  split; [exact Hbl|]. split; [exact Hframe|].
  split; [|split; [|split; [exact Hnf|split; [apply process_source_no_panic|]]]].
  - apply Forall_app. split; [repeat constructor | apply fs_events_quiet, Hev].
  - rewrite generated_app, (generated_fs _ Hev). reflexivity.
  - intros Hout.
    destruct (process_source_success ["test-pages"; n] w Hout)
      as (data' & html & meta & H1 & H2 & H3 & H4).
    exists data', html, meta. split; [|auto].
    rewrite Hframe; [exact H1 | apply source_is_no_output].
Qed.

Lemma for_dirItems_skip item rest w :
  qualifies (fs w) item = false →
  blocked w !! ["test-pages"; Name item; "source.html"] = None ∨ IsDir item = false →
  ∃ evs, Forall (λ e, is_fs e = true) evs
    ∧ for_dirItems (item :: rest) w
      = Run (out (for_dirItems rest w)) (world (for_dirItems rest w))
            (evs ++ events (for_dirItems rest w)).
Proof.
  intros Hq Hb. cbn [for_dirItems]. unfold qualifies in Hq.
  destruct (IsDir item); simpl in *.
  - destruct Hb as [Hb|]; [|discriminate].
    exists [EvStat ["test-pages"; Name item; "source.html"]].
    split; [repeat constructor|].
    erewrite bind_Ret; [|apply fileExists_definite; exact Hb].
    rewrite Hq. reflexivity.
  - exists []. split; [constructor|]. destruct (for_dirItems rest w); reflexivity.
Qed.

Lemma for_dirItems_blocked item rest w r :
  IsDir item = true →
  blocked w !! ["test-pages"; Name item; "source.html"] = Some r →
  for_dirItems (item :: rest) w
  = Run Panic w [EvStat ["test-pages"; Name item; "source.html"]].
Proof.
  intros Hd Hb. cbn [for_dirItems]. rewrite Hd. simpl.
  unfold bind. rewrite fileExists_run. unfold stat_result. rewrite Hb.
  destruct r; reflexivity.
Qed.

Lemma for_dirItems_take item rest w :
  qualifies (fs w) item = true →
  blocked w !! ["test-pages"; Name item; "source.html"] = None →
  let g := generateTestcase (Name item) EmptyString w in
  for_dirItems (item :: rest) w =
  match out g with
  | Ret None =>
      Run (out (for_dirItems rest (world g))) (world (for_dirItems rest (world g)))
          (EvStat ["test-pages"; Name item; "source.html"]
           :: events g ++ events (for_dirItems rest (world g)))
  | Ret (Some e) =>
      Run (Fatal (LFailedGenerate (Name item) e)) (world g)
          (EvStat ["test-pages"; Name item; "source.html"]
           :: events g ++ [EvLog (LFailedGenerate (Name item) e)])
  | Fatal l =>
      Run (Fatal l) (world g)
          (EvStat ["test-pages"; Name item; "source.html"] :: events g)
  | Panic =>
      Run Panic (world g)
          (EvStat ["test-pages"; Name item; "source.html"] :: events g)
  end.
Proof.
  intros Hq Hb g. subst g. cbn [for_dirItems]. unfold qualifies in Hq.
  apply andb_true_iff in Hq as [Hd Hf]. rewrite Hd. simpl.
  erewrite bind_Ret; [|apply fileExists_definite; exact Hb].
  rewrite Hf. cbn [negb]. unfold bind.
  destruct (generateTestcase (Name item) EmptyString w) as [[[e|]|l|] w1 ev1];
    cbn [out world events log_Fatal]; try reflexivity.
  destruct (for_dirItems rest w1); reflexivity.
Qed.


Lemma for_dirItems_spec items : ∀ w,
  let r := for_dirItems items w in
  blocked (world r) = blocked w
  ∧ (∀ p, ¬ touched items p → fs (world r) !! p = fs w !! p)
  ∧ Forall (λ e, is_net e = false ∧ is_download_log e = false) (events r)
  ∧ generated (events r) `prefix_of` map Name (List.filter (qualifies (fs w)) items)
  ∧ (out r = Ret () →
     generated (events r) = map Name (List.filter (qualifies (fs w)) items))
  ∧ (∀ l, out r = Fatal l → fails_at items w r l)
  ∧ (out r = Panic →
     ∃ item, In item items ∧ IsDir item = true
             ∧ blocked w !! ["test-pages"; Name item; "source.html"] ≠ None).
Proof.
  induction items as [|item rest IH]; intros w.
  { cbn. repeat split; auto; try discriminate; try apply prefix_nil. }
  cbv zeta.
  assert (∀ rf, IsDir item = true →
            blocked w !! ["test-pages"; Name item; "source.html"] = Some rf →
            let r := for_dirItems (item :: rest) w in
            blocked (world r) = blocked w
            ∧ (∀ p, ¬ touched (item :: rest) p → fs (world r) !! p = fs w !! p)
            ∧ Forall (λ e, is_net e = false ∧ is_download_log e = false) (events r)
            ∧ generated (events r)
                `prefix_of` map Name (List.filter (qualifies (fs w)) (item :: rest))
            ∧ (out r = Ret () →
               generated (events r)
               = map Name (List.filter (qualifies (fs w)) (item :: rest)))
            ∧ (∀ l, out r = Fatal l → fails_at (item :: rest) w r l)
            ∧ (out r = Panic →
               ∃ it, In it (item :: rest) ∧ IsDir it = true
                     ∧ blocked w !! ["test-pages"; Name it; "source.html"] ≠ None))
    as Hblocked.
  { intros rf Hd Hb. cbv zeta.
    rewrite (for_dirItems_blocked item rest w rf Hd Hb). cbn [out world events].
    split; [reflexivity|]. split; [reflexivity|]. split; [repeat constructor|].
    split; [apply prefix_nil|]. split; [discriminate|]. split; [discriminate|].
    intros _. exists item. split; [left; reflexivity|]. split; [exact Hd|].
    rewrite Hb. discriminate. }
  destruct (qualifies (fs w) item) eqn:Hq;
    [destruct (blocked w !! ["test-pages"; Name item; "source.html"]) as [rf|] eqn:Hb|].
  - (* a directory whose source cannot be resolved *)
    apply andb_true_iff in Hq as [Hd _]. exact (Hblocked rf Hd eq_refl).
  - (* a case that is regenerated *)
    clear Hblocked.
    pose proof Hq as Hq'. unfold qualifies, is_file in Hq'.
    apply andb_true_iff in Hq' as [Hd Hfile].
    destruct (fs w !! ["test-pages"; Name item; "source.html"]) as [[data|]|] eqn:Hf;
      try discriminate.
    destruct (generateTestcase_in_batch (Name item) w data Hb Hf)
      as (Hgb & Hgf & Hge & Hgg & Hgn & Hgp & Hgo).
    rewrite (for_dirItems_take item rest w Hq Hb). cbv zeta.
    cbn [List.filter]. rewrite Hq. cbn [map].
    destruct (out (generateTestcase (Name item) EmptyString w)) as [[e|]|l|] eqn:Hout;
      cbn [out world events].
    + (* it fails: the run stops here *)
      assert (generated (EvStat ["test-pages"; Name item; "source.html"]
                         :: events (generateTestcase (Name item) EmptyString w)
                            ++ [EvLog (LFailedGenerate (Name item) e)])
              = [Name item]) as Hgen.
      { change (EvStat ?p :: ?a ++ ?b) with ([EvStat p] ++ a ++ b).
        rewrite !generated_app, Hgg. reflexivity. }
      rewrite Hgen.
      split; [exact Hgb|].
      split; [|split; [|split; [|split; [discriminate|split; [|discriminate]]]]].
      * intros p Hp. apply Hgf. intros Ho. apply Hp.
        exists item. split; [left; auto|exact Ho].
      * constructor; [split; reflexivity|]. apply Forall_app. split; [exact Hge|].
        repeat constructor.
      * apply prefix_cons, prefix_nil.
      * intros l [= <-]. exists [], item, rest, e.
        cbn [app for_dirItems ret out world events List.filter map].
        split; [reflexivity|]. split; [exact Hq|]. split; [exact Hb|].
        split; [reflexivity|]. split; [reflexivity|]. split; [exact Hout|].
        split; [reflexivity|]. exact Hgen.
    + (* it succeeds: the loop goes on *)
      set (w1 := world (generateTestcase (Name item) EmptyString w)) in *.
      destruct (IH w1) as (Hb1 & Hf1 & He1 & Hp1 & Hr1 & Hx1 & Hn1).
      assert (∀ n, fs w1 !! ["test-pages"; n; "source.html"]
                   = fs w !! ["test-pages"; n; "source.html"]) as Hsrc.
      { intros n. apply Hgf, source_is_no_output. }
      rewrite (filter_qualifies_ext (fs w) (fs w1) rest Hsrc) in Hp1, Hr1.
      assert (generated (EvStat ["test-pages"; Name item; "source.html"]
                         :: events (generateTestcase (Name item) EmptyString w)
                            ++ events (for_dirItems rest w1))
              = Name item :: generated (events (for_dirItems rest w1))) as Hgen.
      { change (EvStat ?p :: ?a ++ ?b) with ([EvStat p] ++ a ++ b).
        rewrite !generated_app, Hgg. reflexivity. }
      rewrite Hgen.
      split; [congruence|]. split; [|split; [|split; [|split; [|split]]]].
      * intros p Hp. rewrite Hf1, Hgf; [reflexivity| |].
        -- intros Ho. apply Hp. exists item. split; [left; auto|exact Ho].
        -- intros (it & Hin & Ho). apply Hp. exists it. split; [right; auto|exact Ho].
      * constructor; [split; reflexivity|]. apply Forall_app. split; assumption.
      * apply prefix_cons, Hp1.
      * intros Hret. rewrite (Hr1 Hret). reflexivity.
      * intros l Hl.
        destruct (Hx1 l Hl)
          as (pre & it & post & e & -> & Hqi & Hbi & -> & Hpre & Hfail & Hw & Hgn').
        exists (item :: pre), it, post, e.
        assert (for_dirItems (item :: pre) w
                = Run (out (for_dirItems pre w1)) (world (for_dirItems pre w1))
                      (EvStat ["test-pages"; Name item; "source.html"]
                       :: events (generateTestcase (Name item) EmptyString w)
                          ++ events (for_dirItems pre w1))) as Hpre'.
        { rewrite (for_dirItems_take item pre w Hq Hb). cbv zeta. rewrite Hout.
          reflexivity. }
        rewrite Hpre'. cbn [out world events List.filter map]. rewrite Hq. cbn [map app].
        split; [reflexivity|]. split.
        { rewrite <- Hqi. symmetry. apply qualifies_ext, Hsrc. }
        split; [congruence|].
        split; [reflexivity|]. split; [exact Hpre|]. split; [exact Hfail|].
        split; [exact Hw|].
        rewrite Hgen, Hgn'. f_equal. f_equal. f_equal.
        apply filter_qualifies_ext, Hsrc.
      * intros Hp. destruct (Hn1 Hp) as (it & Hin & Hdi & Hbi).
        exists it. split; [right; exact Hin|]. split; [exact Hdi|]. congruence.
    + destruct (Hgn l eq_refl).
    + destruct (Hgp eq_refl).
  - (* an entry that is skipped, or whose source cannot be resolved *)
    assert ((IsDir item = true
             ∧ ∃ rf, blocked w !! ["test-pages"; Name item; "source.html"] = Some rf)
            ∨ (blocked w !! ["test-pages"; Name item; "source.html"] = None
               ∨ IsDir item = false)) as [[Hd [rf Hb]]|Hs].
    { destruct (IsDir item), (blocked w !! ["test-pages"; Name item; "source.html"]);
        eauto. }
    + exact (Hblocked rf Hd Hb).
    + clear Hblocked.
      destruct (for_dirItems_skip item rest w Hq Hs) as (evs & Hevs & Heq).
      rewrite Heq. cbn [out world events List.filter]. rewrite Hq.
      destruct (IH w) as (Hb1 & Hf1 & He1 & Hp1 & Hr1 & Hx1 & Hn1).
      rewrite generated_app, (generated_fs _ Hevs). cbn [app].
      split; [exact Hb1|]. split; [|split; [|split; [|split; [|split]]]]; auto.
      * intros p Hp. apply Hf1. intros (it & Hin & Ho). apply Hp.
        exists it. split; [right; auto|exact Ho].
      * apply Forall_app. split; [apply fs_events_quiet, Hevs | exact He1].
      * intros l Hl.
        destruct (Hx1 l Hl)
          as (pre & it & post & e & -> & Hqi & Hbi & -> & Hpre & Hfail & Hw & Hgn').
        exists (item :: pre), it, post, e.
        destruct (for_dirItems_skip item pre w Hq Hs) as (evs' & Hevs' & Heq').
        rewrite Heq'. cbn [out world events List.filter]. rewrite Hq.
        rewrite generated_app, (generated_fs _ Hevs). cbn [app].
        repeat split; auto.
      * intros Hp. destruct (Hn1 Hp) as (it & Hin & Hdi & Hbi).
        exists it. split; [right; exact Hin|]. split; assumption.
Qed.

Lemma touched_inv items p :
  touched items p → ∃ item x, In item items ∧ p = ["test-pages"; Name item; x].
Proof.
  intros (item & Hin & Ho). destruct (outputs_inv _ _ Ho) as [x ->]. eauto.
Qed.

(** When the loop runs to its end, every case it regenerated has its
    fixture on disk. *)
Lemma for_dirItems_outputs items : ∀ w,
  NoDup (map Name items) →
  out (for_dirItems items w) = Ret () →
  ∀ item, In item (List.filter (qualifies (fs w)) items) →
          has_outputs (fs (world (for_dirItems items w))) (Name item).
Proof.
  induction items as [|item rest IH]; intros w Hnd Hret it Hin; [destruct Hin|].
  apply NoDup_cons in Hnd as [Hfresh Hnd].
  destruct (qualifies (fs w) item) eqn:Hq.
  - destruct (blocked w !! ["test-pages"; Name item; "source.html"]) as [rf|] eqn:Hb.
    { apply andb_true_iff in Hq as [Hd _].
      rewrite (for_dirItems_blocked item rest w rf Hd Hb) in Hret. discriminate. }
    pose proof Hq as Hq'. unfold qualifies, is_file in Hq'.
    apply andb_true_iff in Hq' as [Hd Hfile].
    destruct (fs w !! ["test-pages"; Name item; "source.html"]) as [[data|]|] eqn:Hf;
      try discriminate.
    destruct (generateTestcase_in_batch (Name item) w data Hb Hf)
      as (Hgb & Hgf & Hge & Hgg & Hgn & Hgo).
    rewrite (for_dirItems_take item rest w Hq Hb) in *. cbv zeta in *.
    destruct (out (generateTestcase (Name item) EmptyString w)) as [[e|]|l|] eqn:Hout;
      cbn [out world events] in *; try discriminate.
    set (w1 := world (generateTestcase (Name item) EmptyString w)) in *.
    destruct (for_dirItems_spec rest w1) as (_ & Hf1 & _).
    cbn [List.filter] in Hin. rewrite Hq in Hin. destruct Hin as [<-|Hin].
    + eapply has_outputs_ext; [|apply Hgo; reflexivity].
      intros x. apply Hf1. intros Ht.
      destruct (touched_inv _ _ Ht) as (it & y & Hit & [= Hname _]).
      apply Hfresh. rewrite list_elem_of_In. rewrite Hname. apply in_map. exact Hit.
    + apply (IH w1 Hnd Hret).
      erewrite filter_qualifies_ext; [exact Hin|].
      intros n. apply Hgf, source_is_no_output.
  - assert (blocked w !! ["test-pages"; Name item; "source.html"] = None
            ∨ IsDir item = false) as Hs.
    { destruct (IsDir item) eqn:Hd; [|auto].
      destruct (blocked w !! ["test-pages"; Name item; "source.html"]) as [rf|] eqn:Hb;
        [|auto].
      rewrite (for_dirItems_blocked item rest w rf Hd Hb) in Hret. discriminate. }
    destruct (for_dirItems_skip item rest w Hq Hs) as (evs & Hevs & Heq).
    rewrite Heq in *. cbn [out world events List.filter] in *. rewrite Hq in Hin.
    apply (IH w Hnd Hret it Hin).
Qed.

(** The names that [ReadDir] lists are distinct. *)
Lemma child_of_key dir k n e : child_of dir (k, n) = Some e → k = dir ++ [Name e].
Proof.
  unfold child_of. simpl. destruct (reverse k) as [|name rd] eqn:Hr; [discriminate|].
  destruct (decide (reverse rd = dir)) as [<-|]; [|discriminate].
  intros [= <-]. simpl.
  rewrite <- (reverse_involutive k), Hr, reverse_cons. reflexivity.
Qed.

Lemma NoDup_omap_child_of dir (l : list (path * node)) :
  NoDup l.*1 → NoDup (map Name (omap (child_of dir) l)).
Proof.
  induction l as [|[k n] l IH]; simpl; [constructor|].
  intros Hnd. apply NoDup_cons in Hnd as [Hk Hnd].
  destruct (child_of dir (k, n)) as [e|] eqn:He; simpl; [|auto].
  apply NoDup_cons. split; [|auto].
  intros Hin. apply Hk.
  apply list_elem_of_In, in_map_iff in Hin as (e' & Hname & Hin).
  apply list_elem_of_In, list_elem_of_omap in Hin as ([k' n'] & Hin & He').
  apply child_of_key in He, He'. rewrite Hname in He'. subst k k'.
  apply list_elem_of_fmap. exists (dir ++ [Name e], n'). split; [reflexivity|exact Hin].
Qed.

Lemma NoDup_children f dir : NoDup (map Name (children f dir)).
Proof.
  unfold children.
  assert (map Name (merge_sort by_name (omap (child_of dir) (map_to_list f)))
          ≡ₚ map Name (omap (child_of dir) (map_to_list f))) as ->.
  { apply fmap_Permutation, merge_sort_Permutation. }
  apply NoDup_omap_child_of, NoDup_fst_map_to_list.
Qed.

End Batch.

(** ** main in batch mode *)

Section MainBatch.
Context `{C : Collaborators}.

Lemma bind_ret_l {A B} (a : A) (k : A → M B) w : bind (ret a) k w = k a w.
Proof. unfold bind, ret. destruct (k a w); reflexivity. Qed.

Lemma main_all prog w : main [prog; "all"] w = batch_mode w.
Proof.
  unfold main, get_arguments. rewrite bind_ret_l.
  rewrite (bool_decide_eq_false_2 ("all" = EmptyString)) by discriminate.
  rewrite bind_ret_l.
  rewrite (bool_decide_eq_true_2 (EmptyString = EmptyString) eq_refl).
  cbn [negb]. rewrite bind_ret_l.
  rewrite (bool_decide_eq_true_2 ("all" = "all") eq_refl). reflexivity.
Qed.


Lemma ReadDir_listing w items :
  out (ioutil_ReadDir (seg "test-pages") w) = Ret (inr items) →
  ioutil_ReadDir (seg "test-pages") w = Run (Ret (inr items)) w [EvReadDir ["test-pages"]]
  ∧ items = children (fs w) ["test-pages"].
Proof.
  unfold ioutil_ReadDir, seg.
  destruct (blocked w !! ["test-pages"]); [discriminate|].
  destruct (fs w !! ["test-pages"]) as [[]|]; try discriminate.
  cbn [out]. intros [= <-]. split; reflexivity.
Qed.

Lemma batch_mode_listing w items :
  out (ioutil_ReadDir (seg "test-pages") w) = Ret (inr items) →
  batch_mode w =
  Run (out (for_dirItems items w)) (world (for_dirItems items w))
      ([EvReadDir ["test-pages"]] ++ events (for_dirItems items w)).
Proof.
  intros H. destruct (ReadDir_listing w items H) as [Hr _].
  unfold batch_mode. erewrite bind_Ret; [|exact Hr]. reflexivity.
Qed.

Lemma batch_mode_quiet w :
  Forall (λ e, is_net e = false ∧ is_download_log e = false) (events (batch_mode w)).
Proof.
  destruct (out (ioutil_ReadDir (seg "test-pages") w)) as [[err|items]|l|] eqn:Hout.
  - unfold batch_mode, bind. revert Hout. unfold ioutil_ReadDir, seg.
    destruct (blocked w !! ["test-pages"]);
      [|destruct (fs w !! ["test-pages"]) as [[]|]];
      cbn [out world events log_Fatal]; intros [= <-]; repeat constructor.
  - rewrite (batch_mode_listing w items Hout). cbn [events].
    apply Forall_app. split; [repeat constructor|].
    apply (for_dirItems_spec items w).
  - revert Hout. unfold ioutil_ReadDir, seg.
    destruct (blocked w !! ["test-pages"]);
      [|destruct (fs w !! ["test-pages"]) as [[]|]]; discriminate.
  - revert Hout. unfold ioutil_ReadDir, seg.
    destruct (blocked w !! ["test-pages"]);
      [|destruct (fs w !! ["test-pages"]) as [[]|]]; discriminate.
Qed.


(** The selection of batch mode, as far as [fileExists] returns: in
    batch mode over the listing of the root, the cases for which
    a generation is started are, in order, a prefix of the entries that are
    directories with a file [source.html], and all of them when the run
    returns; a failure names such an entry; nothing goes over the network
    and no download step is entered; and when the stat of every directory's
    source path gives an answer the run does not panic. *)
Theorem batch_selection (prog : string) (w : World) (dirItems : list DirEntry) :
  out (ioutil_ReadDir (seg "test-pages") w) = Ret (inr dirItems) →
  let r := main [prog; "all"] w in
  generated (events r) `prefix_of` map Name (List.filter (qualifies (fs w)) dirItems)
  ∧ (out r = Ret () →
     generated (events r) = map Name (List.filter (qualifies (fs w)) dirItems))
  ∧ (∀ l, out r = Fatal l →
     ∃ item e, In item dirItems ∧ qualifies (fs w) item = true
               ∧ l = LFailedGenerate (Name item) e)
  ∧ Forall (λ e, is_net e = false ∧ is_download_log e = false) (events r)
  ∧ ((∀ item, In item dirItems → IsDir item = true →
        blocked w !! ["test-pages"; Name item; "source.html"] = None) →
     out r ≠ Panic).
Proof.
  intros Hread r. subst r. rewrite main_all.
  pose proof (batch_mode_quiet w) as Hquiet.
  rewrite (batch_mode_listing w dirItems Hread) in *. cbn [out world events] in *.
  destruct (for_dirItems_spec dirItems w) as (_ & _ & _ & Hp & Hr & Hx & Hn).
  change (generated ([EvReadDir ["test-pages"]] ++ events (for_dirItems dirItems w)))
    with (generated (events (for_dirItems dirItems w))).
  split; [exact Hp|]. split; [exact Hr|]. split; [|split; [exact Hquiet|]].
  - intros l Hl.
    destruct (Hx l Hl) as (pre & item & post & e & -> & Hq & _ & -> & _).
    exists item, e. split; [|auto]. apply in_or_app. right. left. reflexivity.
  - intros Hall Hpanic. destruct (Hn Hpanic) as (item & Hin & Hd & Hb).
    apply Hb, Hall; assumption.
Qed.


End MainBatch.

(** ** The properties on the stand-in *)

Lemma fileExists_panics_iff_witness :
  ∃ b, out (@fileExists fake ["test-pages"; "a"; "source.html"] sample_world) = Ret b.
Proof.
  apply (@fileExists_panics_iff fake ["test-pages"; "a"; "source.html"] sample_world).
  left. vm_compute. reflexivity.
Defined.

Lemma download_decision_witness :
  let sourcePath := ["test-pages"; "a"; "source.html"] in
  let r := @generateTestcase fake "a" EmptyString sample_world in
  Forall (λ e, is_net e = false) (events r)
  ∧ fs (world r) !! sourcePath = fs sample_world !! sourcePath.
Proof.
  apply (@download_decision fake "a" EmptyString sample_world);
    vm_compute; reflexivity.
Defined.

(** C1: [source.html] of case [b] is a symbolic link to itself, so that
    there is no such file and the stat fails with an error that is not the
    not-exist one.  The run panics in [fileExists], the first operand of the
    guard: no download is performed, with a URL supplied and without.  The
    same call in the same corpus and network, the stat answering, does
    download. *)
Theorem stat_failure_prevents_download :
  let sourcePath := ["test-pages"; "b"; "source.html"] in
  let r := @generateTestcase fake "b" "http://example.com/" refused_world in
  let r0 := @generateTestcase fake "b" EmptyString refused_world in
  let r1 := @generateTestcase fake "b" "http://example.com/" online_world in
  stat_result refused_world sourcePath = (None, Some (PathError ELOOP))
  ∧ is_file (fs refused_world) sourcePath = false
  ∧ @nurl_ParseRequestURI fake "http://example.com/" = None
  ∧ out r = Panic
  ∧ events r = [EvLog (LGenerating "b"); EvStat sourcePath]
  ∧ out r0 = Panic
  ∧ events r0 = [EvLog (LGenerating "b"); EvStat sourcePath]
  ∧ fs online_world = fs refused_world
  ∧ net online_world = net refused_world
  ∧ out r1 = Ret None
  ∧ In (EvGet "http://example.com/") (events r1)
  ∧ fs (world r1) !! sourcePath = Some (File "<p>page</p>").
Proof.
  cbv zeta. repeat apply conj.
  8, 9: reflexivity.
  9: { vm_compute. auto 10. }
  all: vm_compute; reflexivity.
Qed.


(** With an engine that writes through the pointer it is given, the flag
    is the one of the tree it leaves, not of the tree that was parsed. *)
Example readerable_follows_the_pointer :
  let r := @generateTestcase mutating "a" EmptyString mutating_world in
  out r = Ret None
  ∧ @CheckDocument mutating "<p>hi</p>" = true
  ∧ ∃ bt, fs (world r) !! ["test-pages"; "a"; "expected-metadata.json"] = Some (File bt)
          ∧ last (lines bt) = Some "}"
          ∧ nth 3 (lines bt) EmptyString = "    " +:+ dq +:+ "readerable" +:+ dq +:+ ": false".
Proof.
  vm_compute. split; [reflexivity|]. split; [reflexivity|].
  eexists. split; [reflexivity|]. split; reflexivity.
Qed.



(** C4: [renderNodeToFile] returns [nil] after creating, writing and
    closing [expected.html]: there is no sync before it reports success. *)
Theorem renderNodeToFile_returns_unsynced :
  let p := ["test-pages"; "a"; "expected.html"] in
  let r := @renderNodeToFile fake "<p>hi</p>" p sample_world in
  out r = Ret None
  ∧ events r = [EvCreate p; EvWrite p "<p>hi</p>"; EvClose p]
  ∧ fs (world r) !! p = Some (File "<p>hi</p>").
Proof. vm_compute. repeat split. Qed.




Lemma batch_selection_witness :
  let r := @main fake ["generate-test"; "all"] sample_world in
  generated (events r) `prefix_of` map Name (List.filter (qualifies (fs sample_world)) sample_listing)
  ∧ (out r = Ret () →
     generated (events r) = map Name (List.filter (qualifies (fs sample_world)) sample_listing))
  ∧ (∀ l, out r = Fatal l →
     ∃ item e, In item sample_listing ∧ qualifies (fs sample_world) item = true
               ∧ l = LFailedGenerate (Name item) e)
  ∧ Forall (λ e, is_net e = false ∧ is_download_log e = false) (events r)
  ∧ ((∀ item, In item sample_listing → IsDir item = true →
        blocked sample_world !! ["test-pages"; Name item; "source.html"] = None) →
     out r ≠ Panic).
Proof.
  apply (@batch_selection fake "generate-test" sample_world sample_listing).
  vm_compute. reflexivity.
Defined.

(** C7: an entry of the root that is a directory without a file
    [source.html], the name being a symbolic link to itself, is not skipped:
    the batch panics in [fileExists] on it, and the case [b] after it, a
    directory with its [source.html], is not processed. *)
Theorem batch_panics_on_refused_entry :
  let a := {| Name := "a"; IsDir := true |} in
  let b := {| Name := "b"; IsDir := true |} in
  let r := @main fake ["generate-test"; "all"] refused_corpus_world in
  out (@ioutil_ReadDir fake ["test-pages"] refused_corpus_world) = Ret (inr [a; b])
  ∧ fs refused_corpus_world !! ["test-pages"; "a"; "source.html"] = None
  ∧ stat_result refused_corpus_world ["test-pages"; "a"; "source.html"]
    = (None, Some (PathError ELOOP))
  ∧ qualifies (fs refused_corpus_world) a = false
  ∧ qualifies (fs refused_corpus_world) b = true
  ∧ out r = Panic
  ∧ events r = [EvReadDir ["test-pages"]; EvStat ["test-pages"; "a"; "source.html"]]
  ∧ generated (events r) = []
  ∧ fs (world r) !! ["test-pages"; "b"; "expected.html"] = None.
Proof. cbv zeta. repeat apply conj; vm_compute; reflexivity. Qed.


(** * Further properties of the script *)

Section MainArguments.
Context `{C : Collaborators}.

(** With a number of arguments other than one or two after the program
    name, [main] exits through [log.Fatal] before anything else happens; an
    invocation with the program name alone gets the message about the
    maximum. *)
Theorem wrong_argument_count (os_Args : list string) (w : World) :
  length os_Args ≠ 2 → length os_Args ≠ 3 →
  let l := match os_Args with [] => LNeedArgument | _ => LMaxTwoArguments end in
  main os_Args w = Run (Fatal l) w [EvLog l].
Proof.
  intros H2 H3.
  destruct os_Args as [|a [|b [|c [|d rest]]]]; cbn [length] in *;
    try congruence; reflexivity.
Qed.

(** An empty test name is refused before the URL is looked at and before
    any I/O, with or without a second argument. *)
Theorem empty_test_name (prog url : string) (w : World) :
  main [prog; EmptyString] w = Run (Fatal LTestNameUndefined) w [EvLog LTestNameUndefined]
  ∧ main [prog; EmptyString; url] w
    = Run (Fatal LTestNameUndefined) w [EvLog LTestNameUndefined].
Proof. split; reflexivity. Qed.

End MainArguments.

Section GenerateRuns.
Context `{C : Collaborators}.

(** The whole run of [generateTestcase] when the download step is taken. *)
Lemma generateTestcase_download_run testName url w :
  let src := ["test-pages"; testName; "source.html"] in
  let pre := [EvLog (LGenerating testName); EvStat src; EvLog (LDownloading testName url)] in
  let d := downloadWebPage url src w in
  let r := process_source ["test-pages"; testName] src (world d) in
  blocked w !! src = None →
  is_file (fs w) src = false ∨ url ≠ EmptyString →
  generateTestcase testName url w =
  match out d with
  | Ret None => Run (out r) (world r) (pre ++ events d ++ events r)
  | Ret (Some err) =>
      Run (Ret (Some (Errorf "failed to download source" err))) (world d) (pre ++ events d)
  | Fatal l => Run (Fatal l) (world d) (pre ++ events d)
  | Panic => Run Panic (world d) (pre ++ events d)
  end.
Proof.
  intros src pre d r Hb Hc. subst src pre d r. rewrite generateTestcase_eq. cbv zeta.
  erewrite bind_Ret; [|reflexivity].
  erewrite bind_Ret; [|eapply fileExists_definite; eassumption].
  assert (negb (is_file (fs w) ["test-pages"; testName; "source.html"])
          || negb (bool_decide (url = EmptyString)) = true) as ->.
  { destruct Hc as [-> | Hu]; [reflexivity|].
    rewrite (bool_decide_eq_false_2 _ Hu). apply orb_true_r. }
  destruct (downloadWebPage_returns url ["test-pages"; testName; "source.html"] w)
    as [o' Ho].
  erewrite (bind_Ret (bind _ _)).
  2: { erewrite bind_Ret; [|reflexivity]. rewrite Ho. reflexivity. }
  rewrite Ho. destruct o' as [err|]; cbn [out world events ret].
  all: f_equal; cbn [app]; rewrite ?app_nil_r, <- ?app_assoc; reflexivity.
Qed.

Lemma generateTestcase_blocked testName url w rf :
  blocked w !! ["test-pages"; testName; "source.html"] = Some rf →
  generateTestcase testName url w
  = Run Panic w [EvLog (LGenerating testName);
                 EvStat ["test-pages"; testName; "source.html"]].
Proof.
  intros Hb. rewrite generateTestcase_eq. cbv zeta.
  erewrite bind_Ret; [|reflexivity].
  unfold bind. rewrite fileExists_run. unfold stat_result. rewrite Hb.
  destruct rf; reflexivity.
Qed.

(** [generateTestcase] never ends the process itself, and it panics
    exactly when the stat of the source path fails with an error other than
    not-exist; in every other case it returns, with [nil] or with an error. *)
Theorem generateTestcase_returns_or_panics (testName sourceURL : string) (w : World) :
  let r := generateTestcase testName sourceURL w in
  (∀ l, out r ≠ Fatal l)
  ∧ (out r = Panic ↔ blocked w !! ["test-pages"; testName; "source.html"] ≠ None)
  ∧ (blocked w !! ["test-pages"; testName; "source.html"] = None → ∃ o, out r = Ret o).
Proof.
  intros r. subst r.
  destruct (blocked w !! ["test-pages"; testName; "source.html"]) as [rf|] eqn:Hb.
  { rewrite (generateTestcase_blocked testName sourceURL w rf Hb). cbn [out].
    split; [discriminate|]. split; [split; [discriminate|reflexivity]|discriminate]. }
  assert (∀ w1, ∃ o, out (process_source ["test-pages"; testName]
                            ["test-pages"; testName; "source.html"] w1) = Ret o) as Hps.
  { intros w1.
    destruct (stays_in_process_source ["test-pages"; testName]
                ["test-pages"; testName; "source.html"] w1) as [_ Hnf].
    pose proof (process_source_no_panic ["test-pages"; testName]
                  ["test-pages"; testName; "source.html"] w1) as Hnp.
    destruct (out (process_source _ _ w1)) as [o|l|]; [eauto|destruct (Hnf l eq_refl)|
      destruct (Hnp eq_refl)]. }
  assert (∃ o, out (generateTestcase testName sourceURL w) = Ret o) as [o Ho].
  { destruct (decide (is_file (fs w) ["test-pages"; testName; "source.html"] = false
                      ∨ sourceURL ≠ EmptyString)) as [Hc|Hc].
    - rewrite (generateTestcase_download_run testName sourceURL w Hb Hc). cbv zeta.
      destruct (downloadWebPage_returns sourceURL
                  ["test-pages"; testName; "source.html"] w) as [[err|] ->];
        cbn [out]; [eauto|apply Hps].
    - assert (is_file (fs w) ["test-pages"; testName; "source.html"] = true
              ∧ sourceURL = EmptyString) as [Hfile ->].
      { destruct (is_file (fs w) _), (decide (sourceURL = EmptyString)); tauto. }
      unfold is_file in Hfile.
      destruct (fs w !! ["test-pages"; testName; "source.html"]) as [[data|]|] eqn:Hf;
        try discriminate.
      rewrite (generateTestcase_reuse testName w data Hb Hf). cbv zeta. cbn [out].
      apply Hps. }
  rewrite Ho. split; [discriminate|]. split; [|eauto].
  split; [discriminate|congruence].
Qed.

End GenerateRuns.

Section Stages.
Context `{C : Collaborators}.

(** Either the download failed, or the run is the processing of the
    source in the world the first part left. *)
Lemma generateTestcase_cases testName url w :
  let src := ["test-pages"; testName; "source.html"] in
  blocked w !! src = None →
  (∃ err w1 evs,
      generateTestcase testName url w
      = Run (Ret (Some (Errorf "failed to download source" err))) w1 evs)
  ∨ (∃ w1 evs,
      generateTestcase testName url w
      = Run (out (process_source ["test-pages"; testName] src w1))
            (world (process_source ["test-pages"; testName] src w1))
            (evs ++ events (process_source ["test-pages"; testName] src w1))).
Proof.
  intros src Hb. subst src.
  destruct (decide (is_file (fs w) ["test-pages"; testName; "source.html"] = false
                    ∨ url ≠ EmptyString)) as [Hc|Hc].
  - rewrite (generateTestcase_download_run testName url w Hb Hc). cbv zeta.
    destruct (downloadWebPage_returns url ["test-pages"; testName; "source.html"] w)
      as [[err|] ->].
    + left. eauto.
    + right. eexists _, _. rewrite app_assoc. reflexivity.
  - assert (is_file (fs w) ["test-pages"; testName; "source.html"] = true
            ∧ url = EmptyString) as [Hfile ->].
    { destruct (is_file (fs w) _), (decide (url = EmptyString)); tauto. }
    unfold is_file in Hfile.
    destruct (fs w !! ["test-pages"; testName; "source.html"]) as [[data|]|] eqn:Hf;
      try discriminate.
    rewrite (generateTestcase_reuse testName w data Hb Hf). cbv zeta.
    right. eauto.
Qed.



Lemma process_source_metadata_failure testDir w cause :
  let src := testDir ++ ["source.html"] in
  let r := process_source testDir src w in
  out r = Ret (Some (Errorf "failed to render metadata" cause)) →
  ∃ data doc article,
    fs w !! src = Some (File data)
    ∧ dom_Parse data = inr doc
    ∧ (FromDocument doc (parsed fakehost)).1 = inr article
    ∧ (html_Render (ArticleNode article)).2 = None
    ∧ fs (world r) !! (testDir ++ ["expected.html"])
      = Some (File (html_Render (ArticleNode article)).1).
Proof.
  unfold process_source, os_Open, dom_Parse_file, readability_FromDocument.
  unfold bind, defer, ret. run_cases.
  all: intros [= <-].
  all: match goal with
       | H : <[_:=_]> _ !! _ = Some _ |- _ => rewrite lookup_insert_eq in H
       end; simplify_eq.
  all: match goal with
       | H1 : renderNodeToFile ?el ?p ?w1 = Run (Ret None) ?w2 _,
         H2 : renderMetadataToFile ?d ?a ?q ?w2 = Run _ ?w3 _ |- _ =>
           pose proof (renderNodeToFile_success el p w1) as Hn;
           pose proof (stays_in_renderMetadataToFile (λ x, x = q) d a q eq_refl w2) as Hs;
           rewrite H1 in Hn; rewrite H2 in Hs; cbn [out world events] in Hn, Hs;
           destruct (Hn eq_refl) as (Hhtml & Hrender & Hheap);
           destruct Hs as [(_ & _ & _ & Hframe & _) _]
       end.
  all: eexists _, _, _; split; [reflexivity|]; split; [eassumption|].
  all: match goal with H : FromDocument _ _ = _ |- _ => rewrite H end.
  all: split; [reflexivity|]; split; [exact Hrender|].
  all: rewrite Hframe; [exact Hhtml|].
  all: intros Heq; apply app_inv_head in Heq; discriminate.
Qed.

(** There is no rollback: when the generation fails at the metadata
    file, [expected.html] has already been replaced by the rendering of the
    article extracted from the source. *)
Theorem no_rollback_of_expected_html (testName sourceURL : string) (w : World)
    (cause : error) :
  let dir := ["test-pages"; testName] in
  let r := generateTestcase testName sourceURL w in
  out r = Ret (Some (Errorf "failed to render metadata" cause)) →
  ∃ data doc article,
    fs (world r) !! (dir ++ ["source.html"]) = Some (File data)
    ∧ dom_Parse data = inr doc
    ∧ (FromDocument doc (parsed fakehost)).1 = inr article
    ∧ fs (world r) !! (dir ++ ["expected.html"])
      = Some (File (html_Render (ArticleNode article)).1).
Proof.
  intros dir r Hout. subst r.
  destruct (blocked w !! ["test-pages"; testName; "source.html"]) as [rf|] eqn:Hb.
  { rewrite (generateTestcase_blocked testName sourceURL w rf Hb) in Hout. discriminate. }
  destruct (generateTestcase_cases testName sourceURL w Hb)
    as [(err & w1 & evs & Heq)|(w1 & evs & Heq)]; rewrite Heq in *; cbn [out world] in *.
  { discriminate. }
  destruct (process_source_metadata_failure dir w1 cause Hout)
    as (data & doc & article & Hsrc & Hparse & Hfrom & _ & Hhtml).
  destruct (stays_in_process_source dir (dir ++ ["source.html"]) w1)
    as [(_ & _ & _ & Hframe & _) _].
  exists data, doc, article.
  split; [|split; [exact Hparse|split; [exact Hfrom|exact Hhtml]]].
  change (dir ++ ["source.html"]) with ["test-pages"; testName; "source.html"] in *.
  rewrite Hframe; [exact Hsrc|]. apply source_is_no_output.
Qed.

(** A generation that returns [nil] leaves the fixture of the source on
    disk, whether the source was reused or downloaded. *)
Lemma generateTestcase_outputs testName url w :
  out (generateTestcase testName url w) = Ret None →
  has_outputs (fs (world (generateTestcase testName url w))) testName.
Proof.
  intros Hout.
  destruct (generateTestcase_tail testName url w Hout) as (w1 & Hps & Hw).
  rewrite Hw.
  destruct (process_source_success ["test-pages"; testName] w1 Hps)
    as (data & html & meta & H1 & H2 & H3 & H4).
  destruct (stays_in_process_source ["test-pages"; testName]
              ["test-pages"; testName; "source.html"] w1) as [(_ & _ & _ & Hframe & _) _].
  exists data, html, meta. split; [|auto].
  rewrite Hframe; [exact H1 | apply source_is_no_output].
Qed.

(** A single-case run of [main] returns only when the fixture of the
    case is on disk: [expected.html] and [expected-metadata.json] are those
    of the [source.html] that is there. *)
Theorem single_case_success (prog testName sourceURL : string) (w : World) :
  testName ≠ "all" →
  (out (main [prog; testName] w) = Ret () →
   has_outputs (fs (world (main [prog; testName] w))) testName)
  ∧ (out (main [prog; testName; sourceURL] w) = Ret () →
     has_outputs (fs (world (main [prog; testName; sourceURL] w))) testName).
Proof.
  intros Hall.
  assert (∀ url, out (bind (generateTestcase testName url)
                        (λ err, match err with
                                | Some err => log_Fatal (LFailedGenerate testName err)
                                | None => ret ()
                                end) w) = Ret () →
                 has_outputs (fs (world (bind (generateTestcase testName url)
                        (λ err, match err with
                                | Some err => log_Fatal (LFailedGenerate testName err)
                                | None => ret ()
                                end) w))) testName) as Hgen.
  { intros url H. apply bind_out_Ret in H as (o & w1 & ev1 & Hg & Hk & ->).
    destruct o as [err|]; [discriminate|]. cbn [ret world].
    pose proof (generateTestcase_outputs testName url w) as Ho.
    rewrite Hg in Ho. cbn [out world] in Ho. apply Ho. reflexivity. }
  unfold main, get_arguments. rewrite !bind_ret_l.
  destruct (bool_decide_reflect (testName = EmptyString)) as [->|Hne].
  { split; discriminate. }
  rewrite !bind_ret_l.
  rewrite (bool_decide_eq_true_2 (EmptyString = EmptyString) eq_refl).
  rewrite (bool_decide_eq_false_2 _ Hall). cbn [negb]. rewrite bind_ret_l.
  split; [apply Hgen|].
  destruct (negb (bool_decide (sourceURL = EmptyString)));
    [destruct (nurl_ParseRequestURI sourceURL)|];
    try (rewrite bind_ret_l; apply Hgen).
  discriminate.
Qed.

(** The case of no file and no URL: the download step is entered with
    the empty URL, which does not parse, so the run returns that error
    without a request and without touching the disk. *)
Theorem no_file_and_no_url (testName sourceURL : string) (w : World) (e : error) :
  let src := ["test-pages"; testName; "source.html"] in
  blocked w !! src = None →
  is_file (fs w) src = false →
  nurl_ParseRequestURI sourceURL = Some e →
  generateTestcase testName sourceURL w
  = Run (Ret (Some (Errorf "failed to download source" (Errorf "failed to parse URL" e))))
        w [EvLog (LGenerating testName); EvStat src; EvLog (LDownloading testName sourceURL)].
Proof.
  intros src Hb Hf Hp. subst src.
  rewrite (generateTestcase_download_run testName sourceURL w Hb (or_introl Hf)). cbv zeta.
  rewrite (downloadWebPage_invalid _ _ _ _ Hp). cbn [out world events].
  rewrite app_nil_r. reflexivity.
Qed.

End Stages.

Section DownloadAndRender.
Context `{C : Collaborators}.

(** A download that returns [nil] has received the whole body and left
    exactly that body in the destination, whatever was there before. *)
Theorem download_replaces_the_file (srcURL : string) (dstPath : path) (w : World) :
  let r := downloadWebPage srcURL dstPath w in
  out r = Ret None →
  nurl_ParseRequestURI srcURL = None
  ∧ ∃ received, net w srcURL = Response received None
                ∧ fs (world r) !! dstPath = Some (File received)
                ∧ In (EvGet srcURL) (events r).
Proof.
  unfold downloadWebPage, httpClient_Get, os_MkdirAll, os_Create, io_Copy, file_Write, emit.
  unfold bind, defer, ret. run_cases.
  all: intros _; split; [reflexivity|]; eexists; split; [reflexivity|].
  all: rewrite lookup_alter_eq, lookup_insert_eq; split; [reflexivity|].
  all: simpl; auto.
Qed.




Lemma defer_Ret {A} (e : event) (body : M A) w a w1 ev1 :
  body w = Run (Ret a) w1 ev1 → defer e body w = Run (Ret a) w1 (ev1 ++ [e]).
Proof. intros H. unfold defer. rewrite H. reflexivity. Qed.

Lemma os_Create_ok w p :
  can_create w p →
  os_Create p w = Run (Ret None) (with_fs (<[p := File EmptyString]> (fs w)) w) [EvCreate p].
Proof.
  intros (Hb & Hd & Hp). unfold os_Create. rewrite Hb, Hp.
  destruct (fs w !! p) as [[]|]; try reflexivity. congruence.
Qed.

Lemma file_Write_ok w p data :
  p ∉ ioerr w →
  file_Write p data w
  = Run (Ret None) (with_fs (alter (append_data data) p (fs w)) w) [EvWrite p data].
Proof.
  intros Hio. unfold file_Write. destruct (decide (p ∈ ioerr w)); [contradiction|reflexivity].
Qed.


(** [renderMetadataToFile] returns [nil] only after it has created the
    file, written the whole record in one write and synced it; the file is
    closed as the function returns. *)
Theorem renderMetadataToFile_syncs (original : nat) (article : Article html_Node)
    (filename : path) (w : World) :
  let r := renderMetadataToFile original article filename w in
  out r = Ret None →
  ∃ doc bt,
    heap w !! original = Some doc
    ∧ json_MarshalIndent (metadata_fields (metadata_of article (CheckDocument doc)))
        EmptyString "    " = inr bt
    ∧ events r = [EvCreate filename; EvWrite filename bt; EvSync filename; EvClose filename]
    ∧ fs (world r) !! filename = Some (File bt).
Proof.
  unfold renderMetadataToFile, readability_CheckDocument, os_Create, file_Write, file_Sync.
  unfold bind, defer, ret. run_cases.
  all: intros _; eexists _, _; split; [reflexivity|]; split; [eassumption|].
  all: split; [reflexivity|].
  all: rewrite lookup_alter_eq, lookup_insert_eq; reflexivity.
Qed.

(** Once the source has been opened, it is closed as the processing
    ends, on every way out: success, an error of any later stage, or a
    panic; the close is the last event. *)
Theorem source_is_closed (testName : string) (w : World) (data : string) :
  let src := ["test-pages"; testName; "source.html"] in
  blocked w !! src = None →
  fs w !! src = Some (File data) →
  last (events (generateTestcase testName EmptyString w)) = Some (EvClose src).
Proof.
  intros src Hb Hf. subst src.
  rewrite (generateTestcase_reuse testName w data Hb Hf). cbv zeta. cbn [events].
  unfold process_source.
  erewrite bind_Ret; [|unfold os_Open; rewrite Hb, Hf; reflexivity].
  cbn [events]. unfold defer.
  match goal with
  | |- context [match ?body with Run _ _ _ => _ end] =>
      destruct body as [[o|l|] w1 ev1] eqn:Hbody
  end; cbn [events].
  - rewrite !app_assoc. apply last_snoc.
  - exfalso.
    pose proof (stays_in_process_source ["test-pages"; testName]
                  ["test-pages"; testName; "source.html"] w) as [_ Hnf].
    apply (Hnf l). unfold process_source.
    erewrite bind_Ret; [|unfold os_Open; rewrite Hb, Hf; reflexivity].
    unfold defer. rewrite Hbody. reflexivity.
  - rewrite !app_assoc. apply last_snoc.
Qed.

End DownloadAndRender.

Section BatchFurther.
Context `{C : Collaborators}.

(** When the root cannot be listed (it is missing, it is a plain file or
    the system refuses it), batch mode exits through [log.Fatal] with the
    error of [ReadDir], having done nothing else. *)
Theorem batch_without_root (prog : string) (w : World) :
  blocked w !! ["test-pages"] ≠ None ∨ fs w !! ["test-pages"] ≠ Some Dir →
  ∃ e, main [prog; "all"] w
       = Run (Fatal (LReadDirFailed (PathError e))) w
             [EvReadDir ["test-pages"]; EvLog (LReadDirFailed (PathError e))].
Proof.
  intros H. rewrite main_all. unfold batch_mode, bind, ioutil_ReadDir, seg.
  destruct (blocked w !! ["test-pages"]) as [rf|]; [eexists; reflexivity|].
  destruct (fs w !! ["test-pages"]) as [[]|]; try (eexists; reflexivity).
  destruct H; congruence.
Qed.

(** When batch mode returns, every entry of the root that is a directory
    with a file [source.html] has the fixture of that source on disk. *)
Theorem batch_success (prog : string) (w : World) :
  let r := main [prog; "all"] w in
  out r = Ret () →
  ∀ item, In item (children (fs w) ["test-pages"]) →
          qualifies (fs w) item = true →
          has_outputs (fs (world r)) (Name item).
Proof.
  intros r Hout item Hin Hq. subst r. rewrite main_all in *.
  destruct (out (ioutil_ReadDir (seg "test-pages") w)) as [[err|items]|l|] eqn:Hread.
  - exfalso. revert Hout Hread. unfold batch_mode, bind, ioutil_ReadDir, seg.
    destruct (blocked w !! ["test-pages"]);
      [|destruct (fs w !! ["test-pages"]) as [[]|]]; cbn; congruence.
  - destruct (ReadDir_listing w items Hread) as [_ ->].
    rewrite (batch_mode_listing w _ Hread) in *. cbn [out world] in *.
    apply (for_dirItems_outputs _ w (NoDup_children (fs w) ["test-pages"]) Hout).
    apply filter_In. split; assumption.
  - exfalso. revert Hread. unfold ioutil_ReadDir, seg.
    destruct (blocked w !! ["test-pages"]);
      [|destruct (fs w !! ["test-pages"]) as [[]|]]; discriminate.
  - exfalso. revert Hread. unfold ioutil_ReadDir, seg.
    destruct (blocked w !! ["test-pages"]);
      [|destruct (fs w !! ["test-pages"]) as [[]|]]; discriminate.
Qed.

(** Batch mode writes nothing but the files [expected.html] and
    [expected-metadata.json] of the entries of the root: every other path,
    and so every [source.html], is afterwards what it was, however the run
    ends. *)
Theorem batch_touches_outputs_only (prog : string) (w : World) (p : path) :
  let r := main [prog; "all"] w in
  ¬ touched (children (fs w) ["test-pages"]) p →
  fs (world r) !! p = fs w !! p.
Proof.
  intros r Hp. subst r. rewrite main_all.
  destruct (out (ioutil_ReadDir (seg "test-pages") w)) as [[err|items]|l|] eqn:Hread.
  - revert Hread. unfold batch_mode, bind, ioutil_ReadDir, seg.
    destruct (blocked w !! ["test-pages"]);
      [|destruct (fs w !! ["test-pages"]) as [[]|]]; cbn; congruence.
  - destruct (ReadDir_listing w items Hread) as [_ ->].
    rewrite (batch_mode_listing w _ Hread). cbn [world].
    apply (for_dirItems_spec _ w). exact Hp.
  - exfalso. revert Hread. unfold ioutil_ReadDir, seg.
    destruct (blocked w !! ["test-pages"]);
      [|destruct (fs w !! ["test-pages"]) as [[]|]]; discriminate.
  - exfalso. revert Hread. unfold ioutil_ReadDir, seg.
    destruct (blocked w !! ["test-pages"]);
      [|destruct (fs w !! ["test-pages"]) as [[]|]]; discriminate.
Qed.

End BatchFurther.

Section Regeneration.
Context `{C : Collaborators}.

Lemma os_Create_ok_iff w p :
  out (os_Create p w) = Ret None ↔ can_create w p.
Proof.
  split; [|intros H; rewrite (os_Create_ok w p H); reflexivity].
  unfold os_Create, can_create.
  destruct (blocked w !! p); [discriminate|].
  destruct (fs w !! p) as [[]|]; destruct (parent_is_dir w p); try discriminate;
    intros _; repeat split; congruence.
Qed.

Lemma json_MarshalIndent_total fields prefix indent :
  ∃ bt, json_MarshalIndent fields prefix indent = inr bt.
Proof. unfold json_MarshalIndent. destruct (List.filter kept fields); eauto. Qed.

Lemma renderNodeToFile_ok_iff el p w :
  out (renderNodeToFile el p w) = Ret None
  ↔ can_create w p ∧ (p ∉ ioerr w) ∧ (html_Render el).2 = None.
Proof.
  split.
  - intros H. unfold renderNodeToFile in H.
    apply bind_out_Ret in H as (cerr & w1 & ev1 & Hc & H & Hw).
    assert (out (os_Create p w) = Ret cerr) as Hc' by (rewrite Hc; reflexivity).
    destruct cerr as [err|]; [discriminate|].
    apply os_Create_ok_iff in Hc'. rewrite (os_Create_ok w p Hc') in Hc.
    injection Hc as Hw1 _. subst w1. split; [exact Hc'|].
    revert H. unfold defer, html_Render_to, bind, file_Write, ret.
    cbn [ioerr with_fs].
    destruct (decide (p ∈ ioerr w)); cbn; [discriminate|].
    destruct ((html_Render el).2); [discriminate|]. auto.
  - intros (Hc & Hio & Hr). unfold renderNodeToFile.
    erewrite bind_Ret; [|apply os_Create_ok; exact Hc]. cbn [out].
    unfold defer, html_Render_to.
    erewrite bind_Ret; [|apply file_Write_ok; exact Hio].
    rewrite Hr. reflexivity.
Qed.

Lemma renderMetadataToFile_ok_iff doc art p w :
  out (renderMetadataToFile doc art p w) = Ret None
  ↔ can_create w p ∧ (p ∉ ioerr w) ∧ is_Some (heap w !! doc).
Proof.
  split.
  - intros H. unfold renderMetadataToFile in H.
    apply bind_out_Ret in H as (cerr & w1 & ev1 & Hc & H & Hw).
    assert (out (os_Create p w) = Ret cerr) as Hc' by (rewrite Hc; reflexivity).
    destruct cerr as [err|]; [discriminate|].
    apply os_Create_ok_iff in Hc'. rewrite (os_Create_ok w p Hc') in Hc.
    injection Hc as Hw1 _. subst w1. split; [exact Hc'|].
    revert H. unfold defer. unfold bind at 1.
    unfold readability_CheckDocument. cbn [heap with_fs].
    destruct (heap w !! doc) as [n|]; [|cbn; discriminate].
    destruct (json_MarshalIndent_total
                (metadata_fields (metadata_of art (CheckDocument n))) EmptyString "    ")
      as [bt ->].
    unfold bind, file_Write, file_Sync, ret. cbn [ioerr with_fs].
    destruct (decide (p ∈ ioerr w)); cbn; [discriminate|]. eauto.
  - intros (Hc & Hio & [n Hn]). unfold renderMetadataToFile.
    erewrite bind_Ret; [|apply os_Create_ok; exact Hc]. cbn [out].
    unfold defer.
    erewrite bind_Ret; [|unfold readability_CheckDocument; cbn [heap with_fs];
                         rewrite Hn; reflexivity].
    destruct (json_MarshalIndent_total
                (metadata_fields (metadata_of art (CheckDocument n))) EmptyString "    ")
      as [bt ->].
    erewrite bind_Ret; [|apply file_Write_ok; exact Hio].
    unfold file_Sync. cbn [ioerr with_fs].
    destruct (decide (p ∈ ioerr w)); [contradiction|reflexivity].
Qed.


Lemma can_create_ext w w' p :
  blocked w' = blocked w →
  (fs w !! p ≠ Some Dir → fs w' !! p ≠ Some Dir) →
  fs w' !! fp_Dir p = fs w !! fp_Dir p →
  can_create w p → can_create w' p.
Proof.
  intros Hb Hp Hd (H1 & H2 & H3). unfold can_create, parent_is_dir in *.
  rewrite Hb. split; [exact H1|]. split; [auto|].
  destruct (fp_Dir p); [reflexivity|]. rewrite Hd. exact H3.
Qed.

(** The exact condition under which the processing of a source file
    succeeds. *)
Lemma process_source_ok_iff testDir w :
  let src := testDir ++ ["source.html"] in
  let html := testDir ++ ["expected.html"] in
  let meta := testDir ++ ["expected-metadata.json"] in
  out (process_source testDir src w) = Ret None
  ↔ blocked w !! src = None
    ∧ (∃ data, fs w !! src = Some (File data) ∧ is_Some (outputs_of data))
    ∧ can_create w html ∧ (html ∉ ioerr w)
    ∧ can_create w meta ∧ (meta ∉ ioerr w).
Proof.
  intros src html meta.
  assert (html ≠ meta) as Hhm.
  { unfold html, meta. intros Heq. apply app_inv_head in Heq. discriminate. }
  assert (fp_Dir meta ≠ html) as Hdm.
  { unfold fp_Dir, meta, html. rewrite removelast_last. intros Heq.
    apply (f_equal length) in Heq. rewrite length_app in Heq. cbn in Heq. lia. }
  (* the world in which the second file is created *)
  assert (∀ el w1,
            blocked w1 = blocked w → ioerr w1 = ioerr w → fs w1 = fs w →
            out (renderNodeToFile el html w1) = Ret None →
            let w2 := world (renderNodeToFile el html w1) in
            ioerr w2 = ioerr w ∧ heap w2 = heap w1
            ∧ (can_create w2 meta ↔ can_create w meta)) as Hsecond.
  { intros el w1 Hb1 Hi1 Hf1 Hok w2.
    destruct (stays_in_renderNodeToFile (λ x, x = html) el html eq_refl w1)
      as [(Hb2 & Hi2 & _ & Hframe & _) _].
    fold w2 in Hb2, Hi2, Hframe.
    split; [congruence|]. split; [apply renderNodeToFile_heap|].
    assert (fs w2 !! meta = fs w !! meta) as Hm.
    { rewrite Hframe, Hf1; [reflexivity|congruence]. }
    assert (fs w2 !! fp_Dir meta = fs w !! fp_Dir meta) as Hd.
    { rewrite Hframe, Hf1; [reflexivity|exact Hdm]. }
    split; apply can_create_ext; try congruence. }
  unfold process_source.
  split.
  - intros H.
    apply bind_out_Ret in H as (oerr & w1 & ev1 & Ho & H & Hw1).
    revert Ho. unfold os_Open.
    destruct (blocked w !! src) eqn:Hb;
      [intros [= <- <- <-]; discriminate|].
    destruct (fs w !! src) as [n|] eqn:Hf; intros [= <- <- <-]; [|discriminate].
    revert H. unfold defer. unfold bind at 1. unfold dom_Parse_file. rewrite Hf.
    destruct n as [data|]; [|cbn; discriminate].
    destruct (dom_Parse data) as [err|doc] eqn:Hparse; [cbn; discriminate|].
    cbn beta iota. unfold bind at 1. unfold readability_FromDocument.
    cbn [heap with_heap]. rewrite lookup_insert_eq.
    destruct (FromDocument doc (parsed fakehost)) as [[err|article] doc'] eqn:Hfrom;
      [cbn; discriminate|].
    cbn beta iota.
    set (w1 := with_heap _ _).
    unfold bind at 1.
    destruct (renderNodeToFile (ArticleNode article) (fp_Join [testDir; seg "expected.html"]) w1)
      as [[[err|]|l|] w2 ev2] eqn:Hrn; try (cbn; discriminate).
    unfold bind at 1.
    destruct (renderMetadataToFile _ article
                (fp_Join [testDir; seg "expected-metadata.json"]) w2)
      as [[[err|]|l|] w3 ev3] eqn:Hrm; try (cbn; discriminate).
    intros _.
    assert (out (renderNodeToFile (ArticleNode article) html w1) = Ret None) as Hok1.
    { change (fp_Join [testDir; seg "expected.html"]) with html in Hrn.
      rewrite Hrn. reflexivity. }
    assert (out (renderMetadataToFile (fresh (dom (heap w))) article meta w2) = Ret None)
      as Hok2.
    { change (fp_Join [testDir; seg "expected-metadata.json"]) with meta in Hrm.
      rewrite Hrm. reflexivity. }
    destruct (Hsecond (ArticleNode article) w1 eq_refl eq_refl eq_refl Hok1)
      as (Hi2 & Hh2 & Hc2).
    assert (world (renderNodeToFile (ArticleNode article) html w1) = w2) as Hw2.
    { change (fp_Join [testDir; seg "expected.html"]) with html in Hrn.
      rewrite Hrn. reflexivity. }
    rewrite Hw2 in Hi2, Hh2, Hc2.
    apply renderNodeToFile_ok_iff in Hok1 as (Hc1 & Hio1 & Hr1).
    apply renderMetadataToFile_ok_iff in Hok2 as (Hcm & Hiom & Hdoc).
    split; [reflexivity|]. split.
    { exists data. split; [reflexivity|]. unfold outputs_of.
      rewrite Hparse, Hfrom, Hr1.
      destruct (json_MarshalIndent_total
                  (metadata_fields (metadata_of article (CheckDocument doc')))
                  EmptyString "    ") as [bt ->]. eauto. }
    split; [exact Hc1|]. split; [exact Hio1|]. split; [apply Hc2, Hcm|].
    rewrite <- Hi2. exact Hiom.
  - intros (Hb & (data & Hf & [[html' meta'] Hof]) & Hc1 & Hio1 & Hcm & Hiom).
    unfold outputs_of in Hof.
    destruct (dom_Parse data) as [err|doc] eqn:Hparse; [discriminate|].
    destruct (FromDocument doc (parsed fakehost)) as [[err|article] doc'] eqn:Hfrom;
      [discriminate|].
    destruct ((html_Render (ArticleNode article)).2) eqn:Hr1; [discriminate|].
    unfold bind at 1. unfold os_Open. fold src. rewrite Hb, Hf. cbn beta iota.
    unfold defer. unfold bind at 1. unfold dom_Parse_file. fold src.
    rewrite Hf, Hparse. cbn beta iota.
    unfold bind at 1. unfold readability_FromDocument. cbn [heap with_heap].
    rewrite lookup_insert_eq, Hfrom. cbn beta iota.
    set (w1 := with_heap _ _).
    assert (out (renderNodeToFile (ArticleNode article) html w1) = Ret None) as Hok1.
    { apply renderNodeToFile_ok_iff. auto. }
    destruct (Hsecond (ArticleNode article) w1 eq_refl eq_refl eq_refl Hok1)
      as (Hi2 & Hh2 & Hc2).
    change (fp_Join [testDir; seg "expected.html"]) with html.
    change (fp_Join [testDir; seg "expected-metadata.json"]) with meta.
    unfold bind at 1.
    destruct (renderNodeToFile (ArticleNode article) html w1) as [o2 w2 ev2] eqn:Hrn.
    cbn [out world] in Hok1, Hi2, Hh2, Hc2. subst o2. cbn beta iota.
    assert (out (renderMetadataToFile (fresh (dom (heap w))) article meta w2) = Ret None)
      as Hok2.
    { apply renderMetadataToFile_ok_iff. split; [apply Hc2, Hcm|].
      split; [rewrite Hi2; exact Hiom|].
      rewrite Hh2. subst w1. cbn [heap with_heap]. rewrite lookup_insert_eq. eauto. }
    unfold bind at 1.
    destruct (renderMetadataToFile _ article meta w2) as [o3 w3 ev3] eqn:Hrm.
    cbn [out] in Hok2. subst o3. reflexivity.
Qed.

(** With the source in place and no URL, the generation succeeds exactly
    when the engine accepts the source and renders it, and both output
    files can be created and written. *)
Theorem reuse_succeeds_iff (testName : string) (w : World) (data : string) :
  let dir := ["test-pages"; testName] in
  blocked w !! (dir ++ ["source.html"]) = None →
  fs w !! (dir ++ ["source.html"]) = Some (File data) →
  (out (generateTestcase testName EmptyString w) = Ret None
   ↔ is_Some (outputs_of data)
     ∧ can_create w (dir ++ ["expected.html"])
     ∧ (dir ++ ["expected.html"] ∉ ioerr w)
     ∧ can_create w (dir ++ ["expected-metadata.json"])
     ∧ (dir ++ ["expected-metadata.json"] ∉ ioerr w)).
Proof.
  intros dir Hb Hf.
  rewrite (generateTestcase_reuse testName w data Hb Hf). cbv zeta. cbn [out].
  pose proof (process_source_ok_iff dir w) as Hiff. cbv zeta in Hiff.
  split.
  - intros H. apply Hiff in H as (_ & (data' & Hf' & Hof) & H).
    rewrite Hf in Hf'. injection Hf' as <-.
    split; [exact Hof|exact H].
  - intros (Hof & H). apply Hiff. split; [exact Hb|]. split; [eauto|exact H].
Qed.

(** Generating the same case again from the same source succeeds again
    and leaves the disk exactly as the first generation left it. *)
Theorem regeneration_is_idempotent (testName : string) (w : World) :
  let src := ["test-pages"; testName; "source.html"] in
  let r1 := generateTestcase testName EmptyString w in
  let r2 := generateTestcase testName EmptyString (world r1) in
  is_file (fs w) src = true →
  out r1 = Ret None →
  out r2 = Ret None ∧ fs (world r2) = fs (world r1).
Proof.
  intros src r1 r2 Hfile Hout. subst r1 r2 src.
  set (dir := ["test-pages"; testName]).
  destruct (blocked w !! ["test-pages"; testName; "source.html"]) as [rf|] eqn:Hb.
  { rewrite (generateTestcase_blocked testName EmptyString w rf Hb) in Hout. discriminate. }
  unfold is_file in Hfile.
  destruct (fs w !! ["test-pages"; testName; "source.html"]) as [[data|]|] eqn:Hf;
    try discriminate. clear Hfile.
  rewrite (generateTestcase_reuse testName w data Hb Hf) in *. cbv zeta in *.
  cbn [out world] in *.
  change ["test-pages"; testName; "source.html"] with (dir ++ ["source.html"])
    in Hout, Hb, Hf |- *.
  change ["test-pages"; testName] with dir in Hout, Hb, Hf |- *.
  set (w1 := world (process_source dir (dir ++ ["source.html"]) w)) in *.
  destruct (stays_in_process_source dir (dir ++ ["source.html"]) w)
    as [(Hb1 & Hi1 & _ & Hframe & _) _]. fold w1 in Hb1, Hi1, Hframe.
  destruct (process_source_success dir w Hout)
    as (data0 & html & meta & Hf0 & Hof & Hhtml & Hmeta). fold w1 in Hhtml, Hmeta.
  rewrite Hf in Hf0. injection Hf0 as <-.
  pose proof Hout as Hcond. apply process_source_ok_iff in Hcond.
  cbv zeta in Hcond. destruct Hcond as (_ & _ & Hc1 & Hio1 & Hcm & Hiom).
  assert (∀ x, fp_Dir (dir ++ [x]) = dir) as Hdir.
  { intros x. unfold fp_Dir. apply removelast_last. }
  assert (¬ outputs dir dir) as Hdd.
  { intros [Heq|Heq]; apply (f_equal length) in Heq; rewrite length_app in Heq;
      cbn in Heq; lia. }
  assert (fs w1 !! (dir ++ ["source.html"]) = Some (File data)) as Hf1.
  { rewrite Hframe; [exact Hf|]. apply source_is_no_output. }
  assert (blocked w1 !! (dir ++ ["source.html"]) = None) as Hbs1 by (rewrite Hb1; exact Hb).
  assert (out (process_source dir (dir ++ ["source.html"]) w1) = Ret None) as Hout2.
  { apply process_source_ok_iff. cbv zeta.
    split; [exact Hbs1|]. split; [eauto|].
    split; [|split; [rewrite Hi1; exact Hio1|split; [|rewrite Hi1; exact Hiom]]].
    - eapply can_create_ext; [exact Hb1| |rewrite Hdir; apply Hframe, Hdd|exact Hc1].
      rewrite Hhtml. discriminate.
    - eapply can_create_ext; [exact Hb1| |rewrite Hdir; apply Hframe, Hdd|exact Hcm].
      rewrite Hmeta. discriminate. }
  rewrite (generateTestcase_reuse testName w1 data Hbs1 Hf1). cbv zeta. cbn [out world].
  change ["test-pages"; testName; "source.html"] with (dir ++ ["source.html"]).
  change ["test-pages"; testName] with dir.
  split; [exact Hout2|].
  destruct (stays_in_process_source dir (dir ++ ["source.html"]) w1)
    as [(_ & _ & _ & Hframe2 & _) _].
  destruct (process_source_success dir w1 Hout2)
    as (data2 & html2 & meta2 & Hf2 & Hof2 & Hhtml2 & Hmeta2).
  rewrite Hf1 in Hf2. injection Hf2 as <-.
  rewrite Hof in Hof2. injection Hof2 as <- <-.
  apply map_eq. intros p.
  destruct (decide (p = dir ++ ["expected.html"])) as [->|Hp1]; [congruence|].
  destruct (decide (p = dir ++ ["expected-metadata.json"])) as [->|Hp2]; [congruence|].
  apply Hframe2. intros [?|?]; contradiction.
Qed.

End Regeneration.

(** ** The further properties on the stand-in *)

Lemma wrong_argument_count_witness :
  @main fake ["generate-test"] sample_world
  = Run (Fatal LMaxTwoArguments) sample_world [EvLog LMaxTwoArguments].
Proof.
  apply (@wrong_argument_count fake ["generate-test"] sample_world); cbn; lia.
Defined.

Lemma generateTestcase_returns_or_panics_witness :
  ∃ o, out (@generateTestcase fake "a" EmptyString sample_world) = Ret o.
Proof.
  apply (@generateTestcase_returns_or_panics fake "a" EmptyString sample_world).
  vm_compute. reflexivity.
Defined.


Lemma no_rollback_of_expected_html_witness :
  let dir := ["test-pages"; "a"] in
  let r := @generateTestcase fake "a" EmptyString faulty_world in
  ∃ data doc article,
    fs (world r) !! (dir ++ ["source.html"]) = Some (File data)
    ∧ @dom_Parse fake data = inr doc
    ∧ (@FromDocument fake doc (@parsed fake fakehost)).1 = inr article
    ∧ fs (world r) !! (dir ++ ["expected.html"])
      = Some (File (@html_Render fake (ArticleNode article)).1).
Proof.
  apply (@no_rollback_of_expected_html fake "a" EmptyString faulty_world
           (Errorf "failed to write metadata file" (PathError EIO))).
  vm_compute. reflexivity.
Defined.

Lemma single_case_success_witness :
  @has_outputs fake (fs (world (@main fake ["generate-test"; "a"] sample_world))) "a".
Proof.
  apply (@single_case_success fake "generate-test" "a" EmptyString sample_world).
  - discriminate.
  - vm_compute. reflexivity.
Defined.

Lemma no_file_and_no_url_witness :
  let src := ["test-pages"; "b"; "source.html"] in
  @generateTestcase fake "b" EmptyString sample_world
  = Run (Ret (Some (Errorf "failed to download source"
                      (Errorf "failed to parse URL" (ErrText "invalid URI for request")))))
        sample_world
        [EvLog (LGenerating "b"); EvStat src; EvLog (LDownloading "b" EmptyString)].
Proof.
  apply (@no_file_and_no_url fake "b" EmptyString sample_world); vm_compute; reflexivity.
Defined.

Lemma download_replaces_the_file_witness :
  let dst := ["test-pages"; "a"; "source.html"] in
  let r := @downloadWebPage fake "http://example.com/" dst online_world in
  @nurl_ParseRequestURI fake "http://example.com/" = None
  ∧ ∃ received, net online_world "http://example.com/" = Response received None
                ∧ fs (world r) !! dst = Some (File received)
                ∧ In (EvGet "http://example.com/") (events r).
Proof.
  apply (@download_replaces_the_file fake "http://example.com/"
           ["test-pages"; "a"; "source.html"] online_world).
  vm_compute. reflexivity.
Defined.


Lemma renderMetadataToFile_syncs_witness :
  let filename := ["test-pages"; "a"; "expected-metadata.json"] in
  let article := {| Title := "Hello"; Byline := EmptyString; Excerpt := EmptyString;
                    Language := "en"; SiteName := EmptyString;
                    ArticleNode := "<p>hi</p>" |} in
  let r := @renderMetadataToFile fake 0 article filename parsed_world in
  ∃ doc bt,
    heap parsed_world !! 0 = Some doc
    ∧ @json_MarshalIndent fake
        (metadata_fields (@metadata_of fake article (@CheckDocument fake doc)))
        EmptyString "    " = inr bt
    ∧ events r = [EvCreate filename; EvWrite filename bt; EvSync filename; EvClose filename]
    ∧ fs (world r) !! filename = Some (File bt).
Proof.
  apply (@renderMetadataToFile_syncs fake 0
           {| Title := "Hello"; Byline := EmptyString; Excerpt := EmptyString;
              Language := "en"; SiteName := EmptyString; ArticleNode := "<p>hi</p>" |}
           ["test-pages"; "a"; "expected-metadata.json"] parsed_world).
  vm_compute. reflexivity.
Defined.

Lemma source_is_closed_witness :
  last (events (@generateTestcase fake "a" EmptyString sample_world))
  = Some (EvClose ["test-pages"; "a"; "source.html"]).
Proof.
  apply (@source_is_closed fake "a" sample_world "<p>hi</p>"); vm_compute; reflexivity.
Defined.

Lemma batch_without_root_witness :
  ∃ e, @main fake ["generate-test"; "all"] empty_world
       = Run (Fatal (LReadDirFailed (PathError e))) empty_world
             [EvReadDir ["test-pages"]; EvLog (LReadDirFailed (PathError e))].
Proof.
  apply (@batch_without_root fake "generate-test" empty_world).
  right. vm_compute. discriminate.
Defined.

Lemma batch_success_witness :
  @has_outputs fake
    (fs (world (@main fake ["generate-test"; "all"] sample_world))) "a".
Proof.
  refine (@batch_success fake "generate-test" sample_world _
            {| Name := "a"; IsDir := true |} _ _).
  - vm_compute. reflexivity.
  - vm_compute. auto.
  - vm_compute. reflexivity.
Defined.

Lemma batch_touches_outputs_only_witness :
  fs (world (@main fake ["generate-test"; "all"] sample_world))
    !! ["test-pages"; "a"; "source.html"]
  = fs sample_world !! ["test-pages"; "a"; "source.html"].
Proof.
  apply (@batch_touches_outputs_only fake "generate-test" sample_world).
  intros (item & _ & [H|H]); apply (f_equal (@last string)) in H;
    rewrite last_snoc in H; discriminate.
Defined.

Lemma reuse_succeeds_iff_witness :
  let dir := ["test-pages"; "a"] in
  out (@generateTestcase fake "a" EmptyString sample_world) = Ret None
  ↔ is_Some (@outputs_of fake "<p>hi</p>")
    ∧ can_create sample_world (dir ++ ["expected.html"])
    ∧ (dir ++ ["expected.html"] ∉ ioerr sample_world)
    ∧ can_create sample_world (dir ++ ["expected-metadata.json"])
    ∧ (dir ++ ["expected-metadata.json"] ∉ ioerr sample_world).
Proof.
  apply (@reuse_succeeds_iff fake "a" sample_world "<p>hi</p>"); vm_compute; reflexivity.
Defined.

Lemma regeneration_is_idempotent_witness :
  let r1 := @generateTestcase fake "a" EmptyString sample_world in
  let r2 := @generateTestcase fake "a" EmptyString (world r1) in
  out r2 = Ret None ∧ fs (world r2) = fs (world r1).
Proof.
  apply (@regeneration_is_idempotent fake "a" sample_world); vm_compute; reflexivity.
Defined.
